(** * Thermia Genesis Modbus register access layer

    A shallow embedding of [common_thermia.c] / [common_thermia.h]: the
    register catalog and its linear lookup, the process-wide session
    ([g_ctx], [g_model]), and the four register accessors with their
    [MODBUS_CHECK] / [REGISTER_CHECK] guards.  The libmodbus transport is an
    interface; every call that takes a connection (or creates one) is
    recorded in a trace so that the absence of wire I/O can be stated.
    [modbus_strerror], which only turns [errno] into text, is not part of
    the trace: its result shows in the diagnostic that carries it. *)

From Stdlib Require Import ZArith String Ascii Bool List Lia.
Import ListNotations.
Local Open Scope string_scope.
Local Open Scope list_scope.
Local Open Scope Z_scope.

(** ** Data model *)

(** [typedef enum { MODEL_MEGA = 0x01, MODEL_INVERTER = 0x2 } model_t;]
    An enum used as a bit set, hence an integer. *)
Definition model_t := Z.
Definition MODEL_MEGA : model_t := 0x01.
Definition MODEL_INVERTER : model_t := 0x02.

(** [typedef enum { REG_COIL_STATUS = 0x01, REG_INPUT_STATUS = 0x02,
                    REG_INPUT = 0x04, REG_HOLDING = 0x08 } reg_type_t;] *)
Definition reg_type_t := Z.
Definition REG_COIL_STATUS : reg_type_t := 0x01.
Definition REG_INPUT_STATUS : reg_type_t := 0x02.
Definition REG_INPUT : reg_type_t := 0x04.
Definition REG_HOLDING : reg_type_t := 0x08.

(** [register_def_t], field for field. *)
Record register_def_t := mk_register_def {
  name : string;
  type : reg_type_t;
  address : Z;
  defacto : Z;
  scale : Z;
  model : model_t;
  system : string;
  subsystem : string;
  description : string
}.

(** [strcmp], as far as its sign: the accessors only test it against 0. *)
Definition strcmp (a b : string) : Z :=
  match String.compare a b with
  | Eq => 0
  | Lt => -1
  | Gt => 1
  end.

(** A C condition: an integer is true when it is not zero. *)
Definition truthy (z : Z) : bool := negb (z =? 0).

(** ** The catalog and its lookup *)

Section Catalog.

(** [g_registers[]] is filled from the generated
    [common_thermia_registers.h]; the table is a parameter here. *)
Variable g_registers : list register_def_t.

Definition g_num_registers : nat := length g_registers.

(** The condition of the [if] inside the loop of [find_register]. *)
Definition reg_matches (nm : string) (ty : reg_type_t) (r : register_def_t) : bool :=
  (strcmp (name r) nm =? 0) && truthy (Z.land (type r) ty).

(** [for (int i = 0; i < g_num_registers; i++) ...]: [todo] counts the
    iterations left, [i] is the loop index. *)
Fixpoint find_register_from (todo i : nat) (nm : string) (ty : reg_type_t)
  : option register_def_t :=
  match todo with
  | O => None
  | S todo' =>
      match nth_error g_registers i with
      | None => None
      | Some r =>
          if reg_matches nm ty r then Some r
          else find_register_from todo' (S i) nm ty
      end
  end.

Definition find_register (nm : string) (ty : reg_type_t) : option register_def_t :=
  find_register_from g_num_registers 0 nm ty.

End Catalog.

(** [is_register_supported] reads the global [g_model]; it is passed in. *)
Definition is_register_supported (g_model : model_t) (reg : register_def_t) : bool :=
  truthy (Z.land (model reg) g_model).

(** ** Lookup lemmas *)

Lemma strcmp_zero (a b : string) : (strcmp a b =? 0) = true <-> a = b.
Proof.
  unfold strcmp.
  destruct (String.compare a b) eqn:E; simpl; split; intro H;
    try discriminate; try reflexivity.
  - now apply String.compare_eq_iff.
  - subst b. pose proof (String.compare_antisym a a) as A.
    rewrite E in A. discriminate.
  - subst b. pose proof (String.compare_antisym a a) as A.
    rewrite E in A. discriminate.
Qed.

Lemma reg_matches_spec nm ty r :
  reg_matches nm ty r = true <-> name r = nm /\ Z.land (type r) ty <> 0.
Proof.
  unfold reg_matches, truthy.
  rewrite andb_true_iff, strcmp_zero, negb_true_iff, Z.eqb_neq.
  reflexivity.
Qed.

Lemma skipn_nth_error {A} (l : list A) : forall i x,
  nth_error l i = Some x -> skipn i l = x :: skipn (S i) l.
Proof.
  induction l as [|a l IH]; intros [|i] x H; simpl in H; try discriminate.
  - now injection H as ->.
  - rewrite (skipn_cons i a l). now apply IH.
Qed.

Section CatalogFacts.

Variable g_registers : list register_def_t.

(** What the loop started at index [i] with [todo] iterations left
    returns, when it returns an entry. *)
Lemma find_register_from_some todo : forall i nm ty r,
  find_register_from g_registers todo i nm ty = Some r ->
  exists k, (i <= k < i + todo)%nat
    /\ nth_error g_registers k = Some r
    /\ reg_matches nm ty r = true
    /\ forall j r', (i <= j < k)%nat -> nth_error g_registers j = Some r' ->
                    reg_matches nm ty r' = false.
Proof.
  induction todo as [|todo IH]; intros i nm ty r H; simpl in H.
  - discriminate.
  - destruct (nth_error g_registers i) as [r0|] eqn:Hi; [|discriminate].
    destruct (reg_matches nm ty r0) eqn:Hm.
    + injection H as ->. exists i. repeat split; try lia; auto.
    + apply IH in H. destruct H as (k & Hk & Hn & Hmk & Hfirst).
      exists k. repeat split; try lia; auto.
      intros j r' Hj Hnj.
      destruct (Nat.eq_dec j i) as [->|Hne].
      * congruence.
      * apply (Hfirst j r' ltac:(lia) Hnj).
Qed.

(** And when it returns [NULL]. *)
Lemma find_register_from_none todo : forall i nm ty,
  (length g_registers <= i + todo)%nat ->
  find_register_from g_registers todo i nm ty = None ->
  forall j r', (i <= j)%nat -> nth_error g_registers j = Some r' ->
               reg_matches nm ty r' = false.
Proof.
  induction todo as [|todo IH]; intros i nm ty Hlen H j r' Hj Hn; simpl in H.
  - assert (j < length g_registers)%nat
      by (apply nth_error_Some; congruence).
    lia.
  - destruct (nth_error g_registers i) as [r0|] eqn:Hi.
    + destruct (reg_matches nm ty r0) eqn:Hm; [discriminate|].
      destruct (Nat.eq_dec j i) as [->|Hne]; [congruence|].
      apply (IH (S i) nm ty ltac:(lia) H j r' ltac:(lia) Hn).
    + apply nth_error_None in Hi.
      assert (j < length g_registers)%nat
        by (apply nth_error_Some; congruence).
      lia.
Qed.

(** The loop is the library's [find] with the same condition. *)
Lemma find_register_from_find todo : forall i nm ty,
  (length g_registers <= i + todo)%nat ->
  find_register_from g_registers todo i nm ty
  = find (reg_matches nm ty) (skipn i g_registers).
Proof.
  induction todo as [|todo IH]; intros i nm ty Hlen; simpl.
  - rewrite skipn_all2 by lia. reflexivity.
  - destruct (nth_error g_registers i) as [r0|] eqn:Hi.
    + rewrite (skipn_nth_error _ _ _ Hi). simpl.
      destruct (reg_matches nm ty r0); [reflexivity|].
      apply IH. lia.
    + apply nth_error_None in Hi.
      rewrite skipn_all2 by lia. reflexivity.
Qed.

Lemma find_register_find nm ty :
  find_register g_registers nm ty = find (reg_matches nm ty) g_registers.
Proof.
  unfold find_register, g_num_registers.
  rewrite find_register_from_find by lia. reflexivity.
Qed.

Lemma find_register_none_iff nm ty :
  find_register g_registers nm ty = None
  <-> forall r, In r g_registers -> ~ (name r = nm /\ Z.land (type r) ty <> 0).
Proof.
  rewrite find_register_find. split.
  - intros H r Hin Hm.
    apply reg_matches_spec in Hm.
    pose proof (find_none _ _ H r Hin). congruence.
  - intros H. destruct (find (reg_matches nm ty) g_registers) as [r|] eqn:E.
    + apply find_some in E. destruct E as [Hin Hm].
      apply reg_matches_spec in Hm. destruct (H r Hin Hm).
    + reflexivity.
Qed.

End CatalogFacts.

(** ** The transport (libmodbus) *)

(** A non-NULL [modbus_t *], identified by a number. *)
Definition modbus_t := N.

(** The libmodbus entry points the driver calls, with the arguments passed. *)
Inductive modbus_call :=
| EvNewTcp (ip : string) (port : Z)
| EvSetSlave (ctx : modbus_t) (slave : Z)
| EvConnect (ctx : modbus_t)
| EvClose (ctx : modbus_t)
| EvFree (ctx : modbus_t)
| EvReadBits (ctx : modbus_t) (addr nb : Z)
| EvReadInputBits (ctx : modbus_t) (addr nb : Z)
| EvReadRegisters (ctx : modbus_t) (addr nb : Z)
| EvReadInputRegisters (ctx : modbus_t) (addr nb : Z)
| EvWriteBit (ctx : modbus_t) (addr status : Z)
| EvWriteRegister (ctx : modbus_t) (addr value : Z).

(** The calls that put a request on the wire for a register. *)
Definition is_register_io (c : modbus_call) : bool :=
  match c with
  | EvReadBits _ _ _ | EvReadInputBits _ _ _ | EvReadRegisters _ _ _
  | EvReadInputRegisters _ _ _ | EvWriteBit _ _ _ | EvWriteRegister _ _ _ => true
  | _ => false
  end.

(** libmodbus over a state [world] of its own (sockets, the device, [errno]).
    A read returns its return code and the content of [dest[0]] after the
    call; [modbus_strerror_errno] is [modbus_strerror(errno)]. *)
Class Modbus (world : Type) := {
  modbus_new_tcp : string -> Z -> world -> option modbus_t * world;
  modbus_set_slave : modbus_t -> Z -> world -> Z * world;
  modbus_connect : modbus_t -> world -> Z * world;
  modbus_close : modbus_t -> world -> world;
  modbus_free : modbus_t -> world -> world;
  modbus_read_bits : modbus_t -> Z -> Z -> world -> (Z * Z) * world;
  modbus_read_input_bits : modbus_t -> Z -> Z -> world -> (Z * Z) * world;
  modbus_read_registers : modbus_t -> Z -> Z -> world -> (Z * Z) * world;
  modbus_read_input_registers : modbus_t -> Z -> Z -> world -> (Z * Z) * world;
  modbus_write_bit : modbus_t -> Z -> Z -> world -> Z * world;
  modbus_write_register : modbus_t -> Z -> Z -> world -> Z * world;
  modbus_strerror_errno : world -> string
}.

(** ** Diagnostics *)

(** One constructor per [fprintf(stderr, ...)] of the driver. *)
Inductive diag :=
| InitialisedAlready                  (* open: g_ctx != NULL *)
| InitialisationFailed (e : string)   (* open: modbus_new_tcp gave NULL *)
| ConnectionFailed (e : string)       (* open: modbus_connect gave -1 *)
| NotInitialised                      (* MODBUS_CHECK *)
| RegisterNotFound (nm : string)      (* REGISTER_CHECK, reg == NULL *)
| RegisterNotSupported (nm : string)  (* REGISTER_CHECK, model *)
| ReadBitFailed (e : string)
| ReadIntFailed (e : string)
| WriteBitFailed (e : string)
| WriteIntFailed (e : string).

Definition nl : string := String (ascii_of_nat 10) EmptyString.

(** The text each diagnostic prints. *)
Definition message (d : diag) : string :=
  (match d with
   | InitialisedAlready => "modbus: initialised already"
   | InitialisationFailed e => "modbus: initialisation failed: " ++ e
   | ConnectionFailed e => "modbus: connection failed: " ++ e
   | NotInitialised => "modbus: not initialised/connected"
   | RegisterNotFound nm => "register: '" ++ nm ++ "' not found"
   | RegisterNotSupported nm => "register: '" ++ nm ++ "' not supported by model"
   | ReadBitFailed e => "register: failed to read bit: " ++ e
   | ReadIntFailed e => "register: failed to read int: " ++ e
   | WriteBitFailed e => "register: failed to write bit: " ++ e
   | WriteIntFailed e => "register: failed to write int: " ++ e
   end ++ nl)%string.

(** ** Integer conversions *)

(** What a [uint8_t] / [uint16_t] object holds. *)
Definition uint8 (z : Z) : Z := z mod 2 ^ 8.
Definition uint16 (z : Z) : Z := z mod 2 ^ 16.

(** [(int16_t)x]: the value with the same low 16 bits in [-2^15, 2^15). *)
Definition int16 (z : Z) : Z := (z + 2 ^ 15) mod 2 ^ 16 - 2 ^ 15.

(** ** Program state *)

Section Driver.

Context {world : Type} {lib : Modbus world}.

(** The two globals, the transport's own state, and what the process has
    done so far: library calls in order, lines on stderr and stdout. *)
Record state := mk_state {
  g_ctx : option modbus_t;
  g_model : model_t;
  bus : world;
  trace : list modbus_call;
  stderr : list diag;
  stdout : list string
}.

Definition set_g_ctx (c : option modbus_t) (s : state) : state :=
  mk_state c (g_model s) (bus s) (trace s) (stderr s) (stdout s).
Definition set_g_model (m : model_t) (s : state) : state :=
  mk_state (g_ctx s) m (bus s) (trace s) (stderr s) (stdout s).

(** Computations over the program state. *)
Definition M (A : Type) : Type := state -> A * state.

Definition ret {A} (a : A) : M A := fun s => (a, s).
Definition bind {A B} (m : M A) (k : A -> M B) : M B :=
  fun s => let (a, s') := m s in k a s'.

Notation "x <- m ;; k" := (bind m (fun x => k))
  (at level 61, m at next level, right associativity).
Notation "m ;;; k" := (bind m (fun _ => k))
  (at level 61, right associativity).

(** [g_model = m;] and [g_ctx = c;] *)
Definition assign_g_model (m : model_t) : M unit :=
  fun s => (tt, set_g_model m s).
Definition assign_g_ctx (c : option modbus_t) : M unit :=
  fun s => (tt, set_g_ctx c s).

Definition fprintf_stderr (d : diag) : M unit :=
  fun s => (tt, mk_state (g_ctx s) (g_model s) (bus s) (trace s)
                         (stderr s ++ [d]) (stdout s)).
Definition printf (line : string) : M unit :=
  fun s => (tt, mk_state (g_ctx s) (g_model s) (bus s) (trace s)
                         (stderr s) (stdout s ++ [line])).

(** A library call: run it on the transport and record it. *)
Definition call {A} (ev : modbus_call) (f : world -> A * world) : M A :=
  fun s => let (a, w) := f (bus s) in
           (a, mk_state (g_ctx s) (g_model s) w (trace s ++ [ev])
                        (stderr s) (stdout s)).
Definition call_void (ev : modbus_call) (f : world -> world) : M unit :=
  call ev (fun w => (tt, f w)).

(** [modbus_strerror(errno)] at this point of the run. *)
Definition strerror : M string := fun s => (modbus_strerror_errno (bus s), s).

(** ** Session *)

Definition thermia_modbus_open (ip : string) (port : Z) (mdl : model_t) : M bool :=
  fun s =>
  match g_ctx s with
  | Some _ =>
      fprintf_stderr InitialisedAlready ;;; ret false
  | None =>
      assign_g_model mdl ;;;
      ctx <- call (EvNewTcp ip port) (modbus_new_tcp ip port) ;;
      assign_g_ctx ctx ;;;
      match ctx with
      | None =>
          e <- strerror ;;
          fprintf_stderr (InitialisationFailed e) ;;;
          ret false
      | Some c =>
          call (EvSetSlave c 1) (modbus_set_slave c 1) ;;;
          rc <- call (EvConnect c) (modbus_connect c) ;;
          if rc =? -1 then
            e <- strerror ;;
            fprintf_stderr (ConnectionFailed e) ;;;
            call_void (EvFree c) (modbus_free c) ;;;
            assign_g_ctx None ;;;
            ret false
          else
            printf ("modbus: connected to " ++ ip ++ ":502 (model: "
                    ++ (if (mdl =? MODEL_MEGA)%Z then "MEGA" else "INVERTER")
                    ++ ")" ++ nl)%string ;;;
            ret true
      end
  end s.

Definition thermia_modbus_close : M unit :=
  fun s =>
  match g_ctx s with
  | Some c =>
      (call_void (EvClose c) (modbus_close c) ;;;
       call_void (EvFree c) (modbus_free c) ;;;
       assign_g_ctx None) s
  | None => (tt, s)
  end.

(** ** Guards *)

(** [MODBUS_CHECK(g_ctx)]: [fail] is what the enclosing function returns
    early, [k] is the rest of its body. *)
Definition MODBUS_CHECK {A} (fail : A) (k : modbus_t -> M A) : M A :=
  fun s =>
  match g_ctx s with
  | None => (fprintf_stderr NotInitialised ;;; ret fail) s
  | Some ctx => k ctx s
  end.

(** [REGISTER_CHECK(reg)], in a function whose parameter is [nm]. *)
Definition REGISTER_CHECK {A} (nm : string) (reg : option register_def_t)
           (fail : A) (k : register_def_t -> M A) : M A :=
  fun s =>
  match reg with
  | None => (fprintf_stderr (RegisterNotFound nm) ;;; ret fail) s
  | Some r =>
      if negb (is_register_supported (g_model s) r)
      then (fprintf_stderr (RegisterNotSupported nm) ;;; ret fail) s
      else k r s
  end.

(** ** Accessors *)

Variable g_registers : list register_def_t.

(** [bool thermia_modbus_read_register_bit(const char *name, bool *value)]:
    [value] is the content of the cell the pointer refers to; the result
    is the return value and the content of that cell afterwards. *)
Definition thermia_modbus_read_register_bit (nm : string) (value : bool)
  : M (bool * bool) :=
  MODBUS_CHECK (false, value) (fun ctx =>
  let reg := find_register g_registers nm (Z.lor REG_COIL_STATUS REG_INPUT_STATUS) in
  REGISTER_CHECK nm reg (false, value) (fun reg =>
  r <- (if type reg =? REG_COIL_STATUS
        then call (EvReadBits ctx (address reg) 1)
                  (modbus_read_bits ctx (address reg) 1)
        else call (EvReadInputBits ctx (address reg) 1)
                  (modbus_read_input_bits ctx (address reg) 1)) ;;
  let rc := fst r in
  let reg_value := uint8 (snd r) in
  if rc =? -1 then
    e <- strerror ;;
    fprintf_stderr (ReadBitFailed e) ;;;
    ret (false, value)
  else
    ret (true, negb (reg_value =? 0)))).

(** [bool thermia_modbus_read_register_int(const char *name, int *value)] *)
Definition thermia_modbus_read_register_int (nm : string) (value : Z)
  : M (bool * Z) :=
  MODBUS_CHECK (false, value) (fun ctx =>
  let reg := find_register g_registers nm (Z.lor REG_INPUT REG_HOLDING) in
  REGISTER_CHECK nm reg (false, value) (fun reg =>
  r <- (if type reg =? REG_INPUT
        then call (EvReadInputRegisters ctx (address reg) 1)
                  (modbus_read_input_registers ctx (address reg) 1)
        else call (EvReadRegisters ctx (address reg) 1)
                  (modbus_read_registers ctx (address reg) 1)) ;;
  let rc := fst r in
  let reg_value := uint16 (snd r) in
  if rc =? -1 then
    e <- strerror ;;
    fprintf_stderr (ReadIntFailed e) ;;;
    ret (false, value)
  else
    ret (true, int16 reg_value))).

(** [bool thermia_modbus_write_register_bit(const char *name, bool value)] *)
Definition thermia_modbus_write_register_bit (nm : string) (value : bool)
  : M bool :=
  MODBUS_CHECK false (fun ctx =>
  let reg := find_register g_registers nm REG_COIL_STATUS in
  REGISTER_CHECK nm reg false (fun reg =>
  let status := if value then 1 else 0 in
  rc <- call (EvWriteBit ctx (address reg) status)
             (modbus_write_bit ctx (address reg) status) ;;
  if rc =? -1 then
    e <- strerror ;;
    fprintf_stderr (WriteBitFailed e) ;;;
    ret false
  else
    ret true)).

(** [bool thermia_modbus_write_register_int(const char *name, int value)] *)
Definition thermia_modbus_write_register_int (nm : string) (value : Z)
  : M bool :=
  MODBUS_CHECK false (fun ctx =>
  let reg := find_register g_registers nm REG_HOLDING in
  REGISTER_CHECK nm reg false (fun reg =>
  rc <- call (EvWriteRegister ctx (address reg) (uint16 value))
             (modbus_write_register ctx (address reg) (uint16 value)) ;;
  if rc =? -1 then
    e <- strerror ;;
    fprintf_stderr (WriteIntFailed e) ;;;
    ret false
  else
    ret true)).

End Driver.

Arguments state world : clear implicits.

(** ** The four accessors, uniformly *)

(** An accessor call with its second argument: for the reads the content
    of the cell behind the output pointer, for the writes the value. *)
Inductive accessor :=
| ReadBit (value : bool)
| ReadInt (value : Z)
| WriteBit (value : bool)
| WriteInt (value : Z).

(** The mask each accessor hands to [find_register]. *)
Definition kind_mask (op : accessor) : reg_type_t :=
  match op with
  | ReadBit _ => Z.lor REG_COIL_STATUS REG_INPUT_STATUS
  | ReadInt _ => Z.lor REG_INPUT REG_HOLDING
  | WriteBit _ => REG_COIL_STATUS
  | WriteInt _ => REG_HOLDING
  end.

(** The diagnostic each accessor prints when its libmodbus call gives -1. *)
Definition io_failure (op : accessor) (e : string) : diag :=
  match op with
  | ReadBit _ => ReadBitFailed e
  | ReadInt _ => ReadIntFailed e
  | WriteBit _ => WriteBitFailed e
  | WriteInt _ => WriteIntFailed e
  end.

Section Run.

Context {world : Type} {lib : Modbus world}.
Variable g_registers : list register_def_t.

(** Calls the accessor; the result is its return value together with the
    accessor's argument as it stands afterwards (for a read, the cell). *)
Definition run (op : accessor) (nm : string) : M (bool * accessor) :=
  fun s =>
  match op with
  | ReadBit v =>
      let '((r, v'), s') := thermia_modbus_read_register_bit g_registers nm v s in
      ((r, ReadBit v'), s')
  | ReadInt v =>
      let '((r, v'), s') := thermia_modbus_read_register_int g_registers nm v s in
      ((r, ReadInt v'), s')
  | WriteBit v =>
      let '(r, s') := thermia_modbus_write_register_bit g_registers nm v s in
      ((r, WriteBit v), s')
  | WriteInt v =>
      let '(r, s') := thermia_modbus_write_register_int g_registers nm v s in
      ((r, WriteInt v), s')
  end.

(** The libmodbus call an accessor makes for the register [reg] once its
    guards have passed, as far as its return code and its effect on the
    transport go. *)
Definition request (op : accessor) (ctx : modbus_t) (reg : register_def_t)
  : world -> Z * world :=
  fun w =>
  match op with
  | ReadBit _ =>
      let '((rc, _), w') :=
        (if type reg =? REG_COIL_STATUS
         then modbus_read_bits ctx (address reg) 1
         else modbus_read_input_bits ctx (address reg) 1) w in (rc, w')
  | ReadInt _ =>
      let '((rc, _), w') :=
        (if type reg =? REG_INPUT
         then modbus_read_input_registers ctx (address reg) 1
         else modbus_read_registers ctx (address reg) 1) w in (rc, w')
  | WriteBit v => modbus_write_bit ctx (address reg) (if v then 1 else 0) w
  | WriteInt v => modbus_write_register ctx (address reg) (uint16 v) w
  end.

End Run.

(** The state [s] with one more line on stderr. *)
Definition complain {world} (d : diag) (s : state world) : state world :=
  mk_state (g_ctx s) (g_model s) (bus s) (trace s) (stderr s ++ [d]) (stdout s).

(** ** A simulated controller, for running the driver *)

(** Coils and discrete inputs share [sim_bits], holding and input registers
    share [sim_words]; both map an address to the word stored there, the
    newest binding first.  [sim_reachable] decides [modbus_connect],
    [sim_io_ok] decides every register request. *)
Record sim := mk_sim {
  sim_reachable : bool;
  sim_io_ok : bool;
  sim_bits : list (Z * Z);
  sim_words : list (Z * Z);
  sim_errno : string
}.

Fixpoint sim_get (m : list (Z * Z)) (a : Z) : Z :=
  match m with
  | [] => 0
  | (k, v) :: m' => if k =? a then v else sim_get m' a
  end.

Definition sim_read (m : sim -> list (Z * Z)) (a : Z) (w : sim) : (Z * Z) * sim :=
  if sim_io_ok w then ((1, sim_get (m w) a), w) else ((-1, 0), w).

#[export] Instance sim_modbus : Modbus sim := {
  modbus_new_tcp ip port w :=
    if (ip =? "")%string then (None, w) else (Some 1%N, w);
  modbus_set_slave ctx slave w := (0, w);
  modbus_connect ctx w := if sim_reachable w then (0, w) else (-1, w);
  modbus_close ctx w := w;
  modbus_free ctx w := w;
  modbus_read_bits ctx a nb w := sim_read sim_bits a w;
  modbus_read_input_bits ctx a nb w := sim_read sim_bits a w;
  modbus_read_registers ctx a nb w := sim_read sim_words a w;
  modbus_read_input_registers ctx a nb w := sim_read sim_words a w;
  modbus_write_bit ctx a v w :=
    if sim_io_ok w
    then (1, mk_sim (sim_reachable w) true ((a, v) :: sim_bits w)
                    (sim_words w) (sim_errno w))
    else (-1, w);
  modbus_write_register ctx a v w :=
    if sim_io_ok w
    then (1, mk_sim (sim_reachable w) true (sim_bits w)
                    ((a, v) :: sim_words w) (sim_errno w))
    else (-1, w);
  modbus_strerror_errno w := sim_errno w
}.

(** A small table in the shape the generator emits, with the register names
    the driver's usage text mentions. *)
Definition brine_in : register_def_t :=
  mk_register_def "valueHeatpumpBrineInTemperature" REG_HOLDING 100 0 10
    (Z.lor MODEL_MEGA MODEL_INVERTER) "Heatpump" "Brine" "Brine in temperature".
Definition reset_alarms : register_def_t :=
  mk_register_def "enableHeatpumpResetAllAlarms" REG_COIL_STATUS 50 0 1
    MODEL_MEGA "Heatpump" "Alarm" "Reset all alarms".
Definition brine_alarm : register_def_t :=
  mk_register_def "alarmHeatpumpBrineInSensor" REG_INPUT_STATUS 60 0 1
    (Z.lor MODEL_MEGA MODEL_INVERTER) "Heatpump" "Alarm" "Brine in sensor alarm".
Definition version_major : register_def_t :=
  mk_register_def "valueHeatpumpSoftwareVersionMajor" REG_INPUT 70 0 1
    (Z.lor MODEL_MEGA MODEL_INVERTER) "Heatpump" "Software" "Software version major".
Definition compressor_speed : register_def_t :=
  mk_register_def "valueHeatpumpCompressorSpeed" REG_HOLDING 110 0 100
    MODEL_MEGA "Heatpump" "Compressor" "Compressor speed".

Definition sample_registers : list register_def_t :=
  [brine_in; reset_alarms; brine_alarm; version_major; compressor_speed].

(** A reachable controller holding 0xFFF6 at word 100 and 5 at word 70. *)
Definition sample_device : sim :=
  mk_sim true true [] [(100, 0xFFF6); (70, 0x0005)] "Connection timed out".

Definition sample_broken_device : sim :=
  mk_sim true false [] [(100, 0xFFF6); (70, 0x0005)] "Connection timed out".

(** The process before [thermia_modbus_open]: [g_ctx = NULL],
    [g_model = MODEL_MEGA]. *)
Definition initial (w : sim) : state sim :=
  mk_state None MODEL_MEGA w [] [] [].

(** An open session on handle 1 with the given model and device. *)
Definition opened (m : model_t) (w : sim) : state sim :=
  mk_state (Some 1%N) m w [] [] [].

(** ** How an accessor call proceeds *)

Ltac unfold_driver :=
  unfold run, thermia_modbus_read_register_bit, thermia_modbus_read_register_int,
    thermia_modbus_write_register_bit, thermia_modbus_write_register_int,
    MODBUS_CHECK, REGISTER_CHECK, bind, ret, fprintf_stderr, strerror, call,
    complain, kind_mask in *.

(** Closes a goal of [run_dispatch] once the libmodbus call is named. *)
Ltac settle_rc rc Hc :=
  let R := fresh "R" in
  split; [reflexivity|];
  simpl; destruct (rc =? -1) eqn:R;
  [ apply Z.eqb_eq in R; left | apply Z.eqb_neq in R; right ];
  (split; [assumption|]); try eexists; simpl; rewrite ?Hc; reflexivity.

Section Skeleton.

Context {world : Type} {lib : Modbus world}.
Variable g_registers : list register_def_t.

(** [MODBUS_CHECK] fires. *)
Lemma run_closed op nm (s : state world) :
  g_ctx s = None ->
  run g_registers op nm s = ((false, op), complain NotInitialised s).
Proof.
  intros Hc. destruct op; unfold_driver; rewrite Hc; reflexivity.
Qed.

(** [REGISTER_CHECK] fires on [reg == NULL]. *)
Lemma run_not_found op nm (s : state world) c :
  g_ctx s = Some c ->
  find_register g_registers nm (kind_mask op) = None ->
  run g_registers op nm s = ((false, op), complain (RegisterNotFound nm) s).
Proof.
  intros Hc Hf. destruct op; unfold_driver; rewrite Hc, Hf; reflexivity.
Qed.

(** [REGISTER_CHECK] fires on [!is_register_supported(reg)]. *)
Lemma run_unsupported op nm (s : state world) c r :
  g_ctx s = Some c ->
  find_register g_registers nm (kind_mask op) = Some r ->
  is_register_supported (g_model s) r = false ->
  run g_registers op nm s = ((false, op), complain (RegisterNotSupported nm) s).
Proof.
  intros Hc Hf Hs. destruct op; unfold_driver; rewrite Hc, Hf, Hs; reflexivity.
Qed.

(** Both guards pass: exactly one register request goes out, and the call
    fails, with the transport's message, exactly when that request
    returned -1. *)
Lemma run_dispatch op nm (s : state world) c r :
  g_ctx s = Some c ->
  find_register g_registers nm (kind_mask op) = Some r ->
  is_register_supported (g_model s) r = true ->
  exists ev,
    is_register_io ev = true /\
    let rc := fst (request op c r (bus s)) in
    let w := snd (request op c r (bus s)) in
    let s1 := mk_state (g_ctx s) (g_model s) w (trace s ++ [ev])
                       (stderr s) (stdout s) in
    (rc = -1 /\
     run g_registers op nm s
     = ((false, op), complain (io_failure op (modbus_strerror_errno w)) s1))
    \/
    (rc <> -1 /\
     exists op', run g_registers op nm s = ((true, op'), s1)).
Proof.
  intros Hc Hf Hs.
  destruct op; unfold request; unfold_driver; rewrite Hc, Hf, Hs; simpl.
  - destruct (type r =? REG_COIL_STATUS).
    + destruct (modbus_read_bits c (address r) 1 (bus s)) as [[rc d] w] eqn:E.
      exists (EvReadBits c (address r) 1). settle_rc rc Hc.
    + destruct (modbus_read_input_bits c (address r) 1 (bus s)) as [[rc d] w] eqn:E.
      exists (EvReadInputBits c (address r) 1). settle_rc rc Hc.
  - destruct (type r =? REG_INPUT).
    + destruct (modbus_read_input_registers c (address r) 1 (bus s))
        as [[rc d] w] eqn:E.
      exists (EvReadInputRegisters c (address r) 1). settle_rc rc Hc.
    + destruct (modbus_read_registers c (address r) 1 (bus s)) as [[rc d] w] eqn:E.
      exists (EvReadRegisters c (address r) 1). settle_rc rc Hc.
  - destruct (modbus_write_bit c (address r) (if value then 1 else 0) (bus s))
      as [rc w] eqn:E.
    exists (EvWriteBit c (address r) (if value then 1 else 0)).
    settle_rc rc Hc.
  - destruct (modbus_write_register c (address r) (uint16 value) (bus s))
      as [rc w] eqn:E.
    exists (EvWriteRegister c (address r) (uint16 value)).
    settle_rc rc Hc.
Qed.

End Skeleton.

(** ** Catalog lookup *)

(** [r] is the match of [nm] under [mask] that comes first in table order. *)
Definition first_match (g_registers : list register_def_t) (nm : string)
           (mask : reg_type_t) (r : register_def_t) : Prop :=
  exists k,
    nth_error g_registers k = Some r
    /\ name r = nm /\ Z.land (type r) mask <> 0
    /\ forall j r', (j < k)%nat -> nth_error g_registers j = Some r' ->
                    ~ (name r' = nm /\ Z.land (type r') mask <> 0).

Lemma find_register_first_match g_registers nm mask r :
  find_register g_registers nm mask = Some r ->
  first_match g_registers nm mask r.
Proof.
  intros H. apply find_register_from_some in H.
  destruct H as (k & _ & Hn & Hm & Hfirst).
  exists k. apply reg_matches_spec in Hm. destruct Hm as [Hname Hkind].
  repeat split; try assumption.
  intros j r' Hj Hnj Hm'. apply reg_matches_spec in Hm'.
  rewrite (Hfirst j r' ltac:(lia) Hnj) in Hm'. discriminate.
Qed.

Lemma first_match_unique g_registers nm mask r1 r2 :
  first_match g_registers nm mask r1 ->
  first_match g_registers nm mask r2 -> r1 = r2.
Proof.
  intros (k1 & Hn1 & Ha1 & Hb1 & Hf1) (k2 & Hn2 & Ha2 & Hb2 & Hf2).
  destruct (Nat.lt_trichotomy k1 k2) as [Hlt | [Heq | Hgt]].
  - destruct (Hf2 k1 r1 Hlt Hn1). split; assumption.
  - subst k2. congruence.
  - destruct (Hf1 k2 r2 Hgt Hn2). split; assumption.
Qed.

(** C5: [find_register] compares names for equality and tests the entry's
    kind against the mask with a bitwise and; it returns the first entry in
    table order passing both tests, [NULL] exactly when no entry passes
    them, and its result is determined by the name and the mask (the table
    is immutable and the function reads nothing else). *)
Theorem find_register_first_structural_match :
  forall (g_registers : list register_def_t) (nm : string) (mask : reg_type_t),
    (forall r, find_register g_registers nm mask = Some r
               <-> first_match g_registers nm mask r)
    /\ (find_register g_registers nm mask = None
        <-> forall r, In r g_registers ->
                      ~ (name r = nm /\ Z.land (type r) mask <> 0))
    /\ (forall r1 r2, first_match g_registers nm mask r1 ->
                      first_match g_registers nm mask r2 -> r1 = r2)
    /\ find_register g_registers nm mask
       = find (fun r => (strcmp (name r) nm =? 0)
                        && negb (Z.land (type r) mask =? 0)) g_registers.
Proof.
  intros g_registers nm mask. repeat split.
  - apply find_register_first_match.
  - intros Hfm.
    destruct (find_register g_registers nm mask) as [r'|] eqn:E.
    + f_equal. apply find_register_first_match in E.
      exact (first_match_unique _ _ _ _ _ E Hfm).
    + destruct Hfm as (k & Hn & Ha & Hb & _).
      apply find_register_none_iff with (r := r) in E.
      * destruct E. split; assumption.
      * eapply nth_error_In; eassumption.
  - apply find_register_none_iff.
  - apply find_register_none_iff.
  - apply first_match_unique.
  - apply find_register_find.
Qed.

(** ** Guards of the accessors *)

Section Guards.

Context {world : Type} {lib : Modbus world}.
Variable g_registers : list register_def_t.

(** C9: with no session open ([g_ctx == NULL]) each of the four accessors
    returns [false] having printed only the not-initialised diagnostic,
    whatever the name is: [MODBUS_CHECK] comes before [find_register], so
    neither the not-found nor the not-supported diagnostic is printed, no
    library call is made and the argument cell is untouched. *)
Theorem closed_session_reports_not_initialised :
  forall (op : accessor) (nm : string) (s : state world),
    g_ctx s = None ->
    let '(res, s') := run g_registers op nm s in
    res = (false, op)
    /\ stderr s' = stderr s ++ [NotInitialised]
    /\ trace s' = trace s /\ bus s' = bus s
    /\ g_ctx s' = None /\ g_model s' = g_model s.
Proof.
  intros op nm s Hc. rewrite (run_closed g_registers op nm s Hc).
  unfold complain; simpl. repeat split; assumption.
Qed.

(** C1: on an open session, for each of the four accessors and each name
    that [find_register] resolves under the accessor's mask, if the
    register's model bits and [g_model] have no bit in common the call
    returns [false] with the not-supported diagnostic, and no libmodbus
    function has been called: the trace and the transport are as before. *)
Theorem unsupported_model_fails_before_io :
  forall (op : accessor) (nm : string) (s : state world) c r,
    g_ctx s = Some c ->
    find_register g_registers nm (kind_mask op) = Some r ->
    Z.land (model r) (g_model s) = 0 ->
    let '(res, s') := run g_registers op nm s in
    res = (false, op)
    /\ stderr s' = stderr s ++ [RegisterNotSupported nm]
    /\ trace s' = trace s /\ bus s' = bus s
    /\ g_ctx s' = Some c /\ g_model s' = g_model s.
Proof.
  intros op nm s c r Hc Hf Hm.
  assert (Hs : is_register_supported (g_model s) r = false).
  { unfold is_register_supported, truthy. rewrite Hm. reflexivity. }
  rewrite (run_unsupported g_registers op nm s c r Hc Hf Hs).
  unfold complain; simpl. repeat split; assumption.
Qed.

(** An entry whose name no other entry carries, of a kind outside the
    mask, is not found. *)
Lemma find_register_wrong_kind r mask :
  In r g_registers ->
  (forall r', In r' g_registers -> name r' = name r -> r' = r) ->
  Z.land (type r) mask = 0 ->
  find_register g_registers (name r) mask = None.
Proof.
  intros Hin Huniq Hk. apply find_register_none_iff.
  intros r' Hin' [Hname Hkind]. apply Huniq in Hname; [|assumption].
  subst r'. contradiction.
Qed.

Lemma find_register_absent nm mask :
  (forall r, In r g_registers -> name r <> nm) ->
  find_register g_registers nm mask = None.
Proof.
  intros Habs. apply find_register_none_iff.
  intros r Hin [Hname _]. exact (Habs r Hin Hname).
Qed.

(** C3: on an open session, for a catalog entry [r] whose name no other
    entry shares: if [r] is an input register, writing an int to its name
    fails with the not-found diagnostic, and if [r] is an input status,
    writing a bit to its name does; the masks [REG_HOLDING] and
    [REG_COIL_STATUS] leave these kinds out, and the outcome is the one a
    name absent from the table gets. *)
Theorem write_to_read_only_kind_is_not_found :
  forall (s : state world) c (r : register_def_t),
    g_ctx s = Some c ->
    In r g_registers ->
    (forall r', In r' g_registers -> name r' = name r -> r' = r) ->
    (type r = REG_INPUT -> forall v,
       thermia_modbus_write_register_int g_registers (name r) v s
       = (false, complain (RegisterNotFound (name r)) s))
    /\ (type r = REG_INPUT_STATUS -> forall v,
       thermia_modbus_write_register_bit g_registers (name r) v s
       = (false, complain (RegisterNotFound (name r)) s))
    /\ (forall nm, (forall r', In r' g_registers -> name r' <> nm) ->
        (forall v, thermia_modbus_write_register_int g_registers nm v s
                   = (false, complain (RegisterNotFound nm) s))
        /\ (forall v, thermia_modbus_write_register_bit g_registers nm v s
                      = (false, complain (RegisterNotFound nm) s))).
Proof.
  intros s c r Hc Hin Huniq. repeat split.
  - intros Hty v.
    assert (Hf : find_register g_registers (name r) REG_HOLDING = None)
      by (apply find_register_wrong_kind; try assumption; rewrite Hty; reflexivity).
    unfold_driver. rewrite Hc, Hf. reflexivity.
  - intros Hty v.
    assert (Hf : find_register g_registers (name r) REG_COIL_STATUS = None)
      by (apply find_register_wrong_kind; try assumption; rewrite Hty; reflexivity).
    unfold_driver. rewrite Hc, Hf. reflexivity.
  - intros v. unfold_driver.
    rewrite Hc, (find_register_absent nm REG_HOLDING H). reflexivity.
  - intros v. unfold_driver.
    rewrite Hc, (find_register_absent nm REG_COIL_STATUS H). reflexivity.
Qed.

(** C10: [thermia_modbus_read_register_bit] and
    [thermia_modbus_read_register_int] assign through the output pointer
    only on the path that returns [true]; whenever they return [false]
    (no session, name not found, register not supported, or the read
    itself failed) the cell holds what it held before. *)
Theorem read_output_written_only_on_success :
  forall (nm : string) (s : state world) (vb : bool) (vi : Z),
    (fst (fst (thermia_modbus_read_register_bit g_registers nm vb s)) = false ->
     snd (fst (thermia_modbus_read_register_bit g_registers nm vb s)) = vb)
    /\ (fst (fst (thermia_modbus_read_register_int g_registers nm vi s)) = false ->
        snd (fst (thermia_modbus_read_register_int g_registers nm vi s)) = vi).
Proof.
  intros nm s vb vi. split; unfold_driver.
  - destruct (g_ctx s) as [c|]; [|reflexivity].
    destruct (find_register g_registers nm _) as [r|]; [|reflexivity].
    destruct (is_register_supported (g_model s) r); simpl; [|reflexivity].
    destruct (type r =? REG_COIL_STATUS).
    + destruct (modbus_read_bits c (address r) 1 (bus s)) as [[rc d] w]; simpl.
      destruct (rc =? -1); simpl; [reflexivity | discriminate].
    + destruct (modbus_read_input_bits c (address r) 1 (bus s)) as [[rc d] w]; simpl.
      destruct (rc =? -1); simpl; [reflexivity | discriminate].
  - destruct (g_ctx s) as [c|]; [|reflexivity].
    destruct (find_register g_registers nm _) as [r|]; [|reflexivity].
    destruct (is_register_supported (g_model s) r); simpl; [|reflexivity].
    destruct (type r =? REG_INPUT).
    + destruct (modbus_read_input_registers c (address r) 1 (bus s))
        as [[rc d] w]; simpl.
      destruct (rc =? -1); simpl; [reflexivity | discriminate].
    + destruct (modbus_read_registers c (address r) 1 (bus s)) as [[rc d] w]; simpl.
      destruct (rc =? -1); simpl; [reflexivity | discriminate].
Qed.

End Guards.

(** ** Integer conversions at the wire boundary *)

Lemma uint16_range z : 0 <= uint16 z < 2 ^ 16.
Proof. unfold uint16. apply Z.mod_pos_bound. reflexivity. Qed.

Lemma uint16_low_bits z : uint16 z = Z.land z 0xFFFF.
Proof.
  unfold uint16. change 0xFFFF with (Z.ones 16).
  rewrite Z.land_ones by lia. reflexivity.
Qed.

Lemma uint16_testbit z i : 0 <= i < 16 -> Z.testbit (uint16 z) i = Z.testbit z i.
Proof.
  intros Hi. unfold uint16. apply Z.mod_pow2_bits_low. lia.
Qed.

(** Two's complement: below [2^15] the word stands for itself, from [2^15]
    on for the word minus [2^16]. *)
Lemma int16_twos_complement w :
  0 <= w < 2 ^ 16 ->
  int16 w = if w <? 2 ^ 15 then w else w - 2 ^ 16.
Proof.
  intros Hw. unfold int16.
  destruct (w <? 2 ^ 15) eqn:E; [apply Z.ltb_lt in E | apply Z.ltb_ge in E].
  - rewrite Z.mod_small by lia. lia.
  - replace (w + 2 ^ 15) with ((w - 2 ^ 15) + 1 * 2 ^ 16) by lia.
    rewrite Z.mod_add by lia. rewrite Z.mod_small by lia. lia.
Qed.

Lemma int16_range z : - 2 ^ 15 <= int16 z < 2 ^ 15.
Proof.
  unfold int16.
  pose proof (Z.mod_pos_bound (z + 2 ^ 15) (2 ^ 16) eq_refl). lia.
Qed.

Section Wire.

Context {world : Type} {lib : Modbus world}.
Variable g_registers : list register_def_t.

(** C2: when [thermia_modbus_read_register_int] gets past its guards and
    the libmodbus read (input registers for [REG_INPUT], holding registers
    otherwise) does not return -1, it returns [true] and stores the 16-bit
    word it received read as a two's-complement number; so the word
    0xFFF6 is stored as -10 and the word 0x0005 as 5. *)
Theorem read_int_sign_extends_wire_word :
  forall (nm : string) (v0 : Z) (s : state world) c r,
    g_ctx s = Some c ->
    find_register g_registers nm (Z.lor REG_INPUT REG_HOLDING) = Some r ->
    is_register_supported (g_model s) r = true ->
    let reply :=
      (if type r =? REG_INPUT
       then modbus_read_input_registers c (address r) 1
       else modbus_read_registers c (address r) 1) (bus s) in
    let raw := uint16 (snd (fst reply)) in
    fst (fst reply) <> -1 ->
    fst (thermia_modbus_read_register_int g_registers nm v0 s)
    = (true, if raw <? 2 ^ 15 then raw else raw - 2 ^ 16)
    /\ 0 <= raw < 2 ^ 16
    /\ (raw = 0xFFF6 ->
        fst (thermia_modbus_read_register_int g_registers nm v0 s) = (true, -10))
    /\ (raw = 0x0005 ->
        fst (thermia_modbus_read_register_int g_registers nm v0 s) = (true, 5)).
Proof.
  intros nm v0 s c r Hc Hf Hs reply raw Hrc.
  assert (Hrun : fst (thermia_modbus_read_register_int g_registers nm v0 s)
                 = (true, int16 raw)).
  { subst raw reply. unfold_driver. rewrite Hc, Hf, Hs. simpl.
    destruct (type r =? REG_INPUT).
    - destruct (modbus_read_input_registers c (address r) 1 (bus s))
        as [[rc d] w]; simpl in *.
      apply Z.eqb_neq in Hrc. rewrite Hrc. reflexivity.
    - destruct (modbus_read_registers c (address r) 1 (bus s))
        as [[rc d] w]; simpl in *.
      apply Z.eqb_neq in Hrc. rewrite Hrc. reflexivity. }
  pose proof (uint16_range (snd (fst reply))) as Hr. fold raw in Hr.
  repeat split; try apply Hr.
  - rewrite Hrun, (int16_twos_complement raw Hr). reflexivity.
  - intros E. rewrite Hrun, E. reflexivity.
  - intros E. rewrite Hrun, E. reflexivity.
Qed.

(** C7: when [thermia_modbus_write_register_int] gets past its guards,
    the one libmodbus call it makes is a single-register write at the
    register's address whose value is the caller's value modulo [2^16],
    that is its low 16 bits, whatever the sign or size of that value. *)
Theorem write_int_sends_value_mod_2_16 :
  forall (nm : string) (v : Z) (s : state world) c r,
    g_ctx s = Some c ->
    find_register g_registers nm REG_HOLDING = Some r ->
    is_register_supported (g_model s) r = true ->
    let s' := snd (thermia_modbus_write_register_int g_registers nm v s) in
    let word := v mod 2 ^ 16 in
    trace s' = trace s ++ [EvWriteRegister c (address r) word]
    /\ bus s' = snd (modbus_write_register c (address r) word (bus s))
    /\ 0 <= word < 2 ^ 16
    /\ word = Z.land v 0xFFFF
    /\ (forall i, 0 <= i < 16 -> Z.testbit word i = Z.testbit v i).
Proof.
  intros nm v s c r Hc Hf Hs s' word.
  assert (Hw : word = uint16 v) by reflexivity.
  repeat split.
  - subst s'. unfold_driver. rewrite Hc, Hf, Hs. simpl.
    destruct (modbus_write_register c (address r) (uint16 v) (bus s)) as [rc w].
    destruct (rc =? -1); reflexivity.
  - subst s'. unfold_driver. rewrite Hc, Hf, Hs. simpl. rewrite Hw.
    destruct (modbus_write_register c (address r) (uint16 v) (bus s)) as [rc w].
    destruct (rc =? -1); reflexivity.
  - rewrite Hw. apply uint16_range.
  - rewrite Hw. apply uint16_range.
  - rewrite Hw. apply uint16_low_bits.
  - intros i Hi. rewrite Hw. apply uint16_testbit. assumption.
Qed.

End Wire.

(** ** Session *)

Section Session.

Context {world : Type} {lib : Modbus world}.

(** [thermia_modbus_close()] called [n] times in a row. *)
Definition close_times (n : nat) (s : state world) : state world :=
  Nat.iter n (fun s0 => snd (thermia_modbus_close s0)) s.

Lemma close_closes (s : state world) : g_ctx (snd (thermia_modbus_close s)) = None.
Proof.
  unfold thermia_modbus_close.
  destruct (g_ctx s) eqn:E; [reflexivity | exact E].
Qed.

(** C4: the session as a two-state machine on [g_ctx].  While a session
    is open, [thermia_modbus_open] returns [false] with the
    initialised-already diagnostic and changes neither the handle, the
    model, the transport nor the trace.  From the closed state it ends
    open, with the model recorded, when it returns [true], and closed when
    it returns [false].  [thermia_modbus_close] on an open session calls
    [modbus_close] then [modbus_free] on the handle and ends closed; on a
    closed one it changes nothing; so any number of calls, at least one,
    ends closed. *)
Theorem session_state_machine :
  forall (ip : string) (port : Z) (mdl : model_t) (s : state world),
    (let '(ok, s') := thermia_modbus_open ip port mdl s in
     match g_ctx s with
     | Some c =>
         ok = false /\ s' = complain InitialisedAlready s
         /\ g_ctx s' = Some c /\ g_model s' = g_model s
         /\ bus s' = bus s /\ trace s' = trace s
     | None =>
         if ok then (exists c, g_ctx s' = Some c) /\ g_model s' = mdl
         else g_ctx s' = None
     end)
    /\ (let s' := snd (thermia_modbus_close s) in
        match g_ctx s with
        | Some c =>
            g_ctx s' = None
            /\ trace s' = trace s ++ [EvClose c; EvFree c]
            /\ bus s' = modbus_free c (modbus_close c (bus s))
        | None => s' = s
        end)
    /\ (forall n, g_ctx (close_times (S n) s) = None)
    /\ (g_ctx s = None -> forall n, close_times n s = s).
Proof.
  intros ip port mdl s. repeat split.
  - unfold thermia_modbus_open.
    destruct (g_ctx s) as [c0|] eqn:Hc.
    + unfold bind, ret, fprintf_stderr, complain; simpl.
      repeat split; try assumption.
    + unfold bind, ret, fprintf_stderr, strerror, call_void, call,
        assign_g_model, assign_g_ctx, set_g_model, set_g_ctx, printf; simpl.
      destruct (modbus_new_tcp ip port (bus s)) as [[c|] w0]; simpl;
        [|reflexivity].
      destruct (modbus_set_slave c 1 w0) as [rs w1]; simpl.
      destruct (modbus_connect c w1) as [rc w2]; simpl.
      destruct (rc =? -1); simpl; [reflexivity|].
      split; [exists c|]; reflexivity.
  - unfold thermia_modbus_close.
    destruct (g_ctx s) as [c0|] eqn:Hc; [|reflexivity].
    unfold bind, call_void, call, assign_g_ctx, set_g_ctx; simpl.
    rewrite <- app_assoc. repeat split.
  - intros n. unfold close_times. simpl. apply close_closes.
  - intros Hc n. induction n as [|n IH]; [reflexivity|].
    unfold close_times in *. simpl. rewrite IH.
    unfold thermia_modbus_close. rewrite Hc. reflexivity.
Qed.

Variable g_registers : list register_def_t.

(** No accessor touches [g_ctx] or [g_model]. *)
Lemma run_keeps_session op nm (s : state world) :
  g_ctx (snd (run g_registers op nm s)) = g_ctx s
  /\ g_model (snd (run g_registers op nm s)) = g_model s.
Proof.
  destruct (g_ctx s) as [c|] eqn:Hc.
  - destruct (find_register g_registers nm (kind_mask op)) as [r|] eqn:Hf.
    + destruct (is_register_supported (g_model s) r) eqn:Hs.
      * destruct (run_dispatch g_registers op nm s c r Hc Hf Hs)
          as (ev & _ & [[_ E] | [_ [op' E]]]);
          rewrite E; simpl; (split; [assumption | reflexivity]).
      * rewrite (run_unsupported g_registers op nm s c r Hc Hf Hs).
        simpl; split; [assumption | reflexivity].
    + rewrite (run_not_found g_registers op nm s c Hc Hf).
      simpl; split; [assumption | reflexivity].
  - rewrite (run_closed g_registers op nm s Hc).
    simpl; split; [assumption | reflexivity].
Qed.

(** C6: when an accessor got past both guards and its libmodbus request
    returned -1, the accessor returns [false] having printed the transport's
    message, and the handle and the model are what they were before the
    call: the session is still open, and the next accessor call on a
    resolvable, supported name puts its request on the wire again.  No
    accessor call ever clears [g_ctx]; [thermia_modbus_close] does. *)
Theorem io_failure_leaves_session_open :
  forall (op : accessor) (nm : string) (s : state world) c r,
    g_ctx s = Some c ->
    find_register g_registers nm (kind_mask op) = Some r ->
    is_register_supported (g_model s) r = true ->
    fst (request op c r (bus s)) = -1 ->
    let s' := snd (run g_registers op nm s) in
    fst (run g_registers op nm s) = (false, op)
    /\ g_ctx s' = Some c /\ g_model s' = g_model s
    /\ bus s' = snd (request op c r (bus s))
    /\ (exists ev, is_register_io ev = true /\ trace s' = trace s ++ [ev])
    /\ stderr s' = stderr s ++ [io_failure op (modbus_strerror_errno (bus s'))]
    /\ (forall op2 nm2 r2,
          find_register g_registers nm2 (kind_mask op2) = Some r2 ->
          is_register_supported (g_model s') r2 = true ->
          exists ev, is_register_io ev = true
            /\ trace (snd (run g_registers op2 nm2 s')) = trace s' ++ [ev])
    /\ (forall op2 nm2, g_ctx (snd (run g_registers op2 nm2 s')) = Some c)
    /\ g_ctx (snd (thermia_modbus_close s')) = None.
Proof.
  intros op nm s c r Hc Hf Hs Hfail s'.
  destruct (run_keeps_session op nm s) as [Kc Km]. fold s' in Kc, Km.
  assert (Hc' : g_ctx s' = Some c) by congruence.
  destruct (run_dispatch g_registers op nm s c r Hc Hf Hs)
    as (ev & Hio & [[_ E] | [Hok _]]); [|contradiction].
  repeat split; try assumption.
  - rewrite E. reflexivity.
  - subst s'. rewrite E. reflexivity.
  - exists ev. split; [assumption|]. subst s'. rewrite E. reflexivity.
  - subst s'. rewrite E. reflexivity.
  - intros op2 nm2 r2 Hf2 Hs2.
    destruct (run_dispatch g_registers op2 nm2 s' c r2 Hc' Hf2 Hs2)
      as (ev2 & Hio2 & [[_ E2] | [_ [op' E2]]]);
      exists ev2; (split; [assumption|]); rewrite E2; reflexivity.
  - intros op2 nm2.
    destruct (run_keeps_session op2 nm2 s') as [Kc2 _]. congruence.
  - apply close_closes.
Qed.

End Session.

(** ** The driver on the simulated controller *)

(** Opening against a reachable controller succeeds and records the model. *)
Example open_reachable :
  thermia_modbus_open "192.168.0.106" 502 MODEL_INVERTER (initial sample_device)
  = (true,
     mk_state (Some 1%N) MODEL_INVERTER sample_device
       [EvNewTcp "192.168.0.106" 502; EvSetSlave 1%N 1; EvConnect 1%N] []
       [("modbus: connected to 192.168.0.106:502 (model: INVERTER)" ++ nl)%string]).
Proof. reflexivity. Qed.

(** Opening against an unreachable one frees the handle and stays closed. *)
Example open_unreachable :
  thermia_modbus_open "192.168.0.106" 502 MODEL_INVERTER
    (initial (mk_sim false true [] [] "No route to host"))
  = (false,
     mk_state None MODEL_INVERTER (mk_sim false true [] [] "No route to host")
       [EvNewTcp "192.168.0.106" 502; EvSetSlave 1%N 1; EvConnect 1%N; EvFree 1%N]
       [ConnectionFailed "No route to host"] []).
Proof. reflexivity. Qed.

(** A holding register holding 225 reads as 225: no scaling on the way. *)
Example read_brine_225 :
  fst (thermia_modbus_read_register_int sample_registers
         "valueHeatpumpBrineInTemperature" 0
         (opened MODEL_MEGA (mk_sim true true [] [(100, 225)] "")))
  = (true, 225).
Proof. reflexivity. Qed.

(** Writing a coil on the model that has it, then reading it back. *)
Example write_then_read_coil :
  let s0 := opened MODEL_MEGA sample_device in
  let '(w, s1) := thermia_modbus_write_register_bit sample_registers
                    "enableHeatpumpResetAllAlarms" true s0 in
  let '(r, _) := thermia_modbus_read_register_bit sample_registers
                    "enableHeatpumpResetAllAlarms" false s1 in
  w = true /\ r = (true, true).
Proof. split; reflexivity. Qed.

Lemma closed_session_reports_not_initialised_witness :
  let s := initial sample_device in
  let '(res, s') := run sample_registers (ReadInt 7) "noSuchRegister" s in
  res = (false, ReadInt 7)
  /\ stderr s' = stderr s ++ [NotInitialised]
  /\ trace s' = trace s /\ bus s' = bus s
  /\ g_ctx s' = None /\ g_model s' = g_model s.
Proof.
  apply (closed_session_reports_not_initialised sample_registers
           (ReadInt 7) "noSuchRegister" (initial sample_device)).
  reflexivity.
Defined.

Lemma unsupported_model_fails_before_io_witness :
  let s := opened MODEL_INVERTER sample_device in
  let '(res, s') := run sample_registers (WriteBit true)
                        "enableHeatpumpResetAllAlarms" s in
  res = (false, WriteBit true)
  /\ stderr s' = stderr s ++ [RegisterNotSupported "enableHeatpumpResetAllAlarms"]
  /\ trace s' = trace s /\ bus s' = bus s
  /\ g_ctx s' = Some 1%N /\ g_model s' = g_model s.
Proof.
  apply (unsupported_model_fails_before_io sample_registers (WriteBit true)
           "enableHeatpumpResetAllAlarms" (opened MODEL_INVERTER sample_device)
           1%N reset_alarms); reflexivity.
Defined.

Lemma sample_names_unique r r' :
  In r sample_registers -> In r' sample_registers -> name r' = name r -> r' = r.
Proof.
  simpl. intros Hr Hr' Hn.
  repeat (destruct Hr as [<-|Hr]); try contradiction;
    repeat (destruct Hr' as [<-|Hr']); try contradiction;
    try reflexivity; discriminate Hn.
Qed.

Lemma write_to_read_only_kind_is_not_found_witness :
  let s := opened MODEL_MEGA sample_device in
  thermia_modbus_write_register_int sample_registers
    "valueHeatpumpSoftwareVersionMajor" 3 s
  = (false, complain (RegisterNotFound "valueHeatpumpSoftwareVersionMajor") s)
  /\ thermia_modbus_write_register_bit sample_registers
       "alarmHeatpumpBrineInSensor" true s
     = (false, complain (RegisterNotFound "alarmHeatpumpBrineInSensor") s).
Proof.
  assert (Hv : In version_major sample_registers) by (simpl; tauto).
  assert (Ha : In brine_alarm sample_registers) by (simpl; tauto).
  destruct (write_to_read_only_kind_is_not_found sample_registers
              (opened MODEL_MEGA sample_device) 1%N version_major eq_refl Hv
              (fun r' Hin => sample_names_unique version_major r' Hv Hin))
    as (Hint & _ & _).
  destruct (write_to_read_only_kind_is_not_found sample_registers
              (opened MODEL_MEGA sample_device) 1%N brine_alarm eq_refl Ha
              (fun r' Hin => sample_names_unique brine_alarm r' Ha Hin))
    as (_ & Hbit & _).
  split; [apply (Hint eq_refl 3) | apply (Hbit eq_refl true)].
Defined.

Lemma read_output_written_only_on_success_witness :
  let s := opened MODEL_MEGA sample_broken_device in
  snd (fst (thermia_modbus_read_register_bit sample_registers
              "enableHeatpumpResetAllAlarms" true s)) = true
  /\ snd (fst (thermia_modbus_read_register_int sample_registers
                 "valueHeatpumpBrineInTemperature" 42 s)) = 42.
Proof.
  split.
  - apply (read_output_written_only_on_success sample_registers
             "enableHeatpumpResetAllAlarms"
             (opened MODEL_MEGA sample_broken_device) true 0).
    reflexivity.
  - apply (read_output_written_only_on_success sample_registers
             "valueHeatpumpBrineInTemperature"
             (opened MODEL_MEGA sample_broken_device) true 42).
    reflexivity.
Defined.

Lemma read_int_sign_extends_wire_word_witness :
  let s := opened MODEL_MEGA sample_device in
  fst (thermia_modbus_read_register_int sample_registers
         "valueHeatpumpBrineInTemperature" 0 s) = (true, -10)
  /\ fst (thermia_modbus_read_register_int sample_registers
            "valueHeatpumpSoftwareVersionMajor" 0 s) = (true, 5).
Proof.
  split.
  - apply (read_int_sign_extends_wire_word sample_registers
             "valueHeatpumpBrineInTemperature" 0
             (opened MODEL_MEGA sample_device) 1%N brine_in);
      try reflexivity.
    simpl. lia.
  - apply (read_int_sign_extends_wire_word sample_registers
             "valueHeatpumpSoftwareVersionMajor" 0
             (opened MODEL_MEGA sample_device) 1%N version_major);
      try reflexivity.
    simpl. lia.
Defined.

Lemma write_int_sends_value_mod_2_16_witness :
  let s := opened MODEL_MEGA sample_device in
  trace (snd (thermia_modbus_write_register_int sample_registers
                "valueHeatpumpBrineInTemperature" (-10) s))
  = trace s ++ [EvWriteRegister 1%N 100 65526].
Proof.
  apply (write_int_sends_value_mod_2_16 sample_registers
           "valueHeatpumpBrineInTemperature" (-10)
           (opened MODEL_MEGA sample_device) 1%N brine_in); reflexivity.
Defined.

Lemma io_failure_leaves_session_open_witness :
  let s := opened MODEL_MEGA sample_broken_device in
  let s' := snd (run sample_registers (ReadInt 0)
                     "valueHeatpumpBrineInTemperature" s) in
  fst (run sample_registers (ReadInt 0) "valueHeatpumpBrineInTemperature" s)
  = (false, ReadInt 0)
  /\ g_ctx s' = Some 1%N /\ g_model s' = g_model s.
Proof.
  destruct (io_failure_leaves_session_open sample_registers (ReadInt 0)
              "valueHeatpumpBrineInTemperature"
              (opened MODEL_MEGA sample_broken_device) 1%N brine_in
              ltac:(reflexivity) ltac:(reflexivity) ltac:(reflexivity)
              ltac:(reflexivity)) as (Hr & Hc & Hm & _).
  repeat split; assumption.
Defined.

Lemma session_state_machine_witness :
  g_ctx (close_times 3 (opened MODEL_MEGA sample_device)) = None
  /\ close_times 2 (initial sample_device) = initial sample_device.
Proof.
  destruct (session_state_machine "192.168.0.106" 502 MODEL_MEGA
              (opened MODEL_MEGA sample_device)) as (_ & _ & Hn & _).
  destruct (session_state_machine "192.168.0.106" 502 MODEL_MEGA
              (initial sample_device)) as (_ & _ & _ & Hid).
  split; [apply (Hn 2%nat) | apply (Hid eq_refl 2%nat)].
Defined.

Lemma find_register_first_structural_match_witness :
  find_register sample_registers "alarmHeatpumpBrineInSensor"
    (Z.lor REG_COIL_STATUS REG_INPUT_STATUS) = Some brine_alarm.
Proof.
  destruct (find_register_first_structural_match sample_registers
              "alarmHeatpumpBrineInSensor"
              (Z.lor REG_COIL_STATUS REG_INPUT_STATUS)) as (Hsome & _).
  apply Hsome. exists 2%nat. repeat split; try reflexivity; try discriminate.
  intros j r' Hj Hn [Hname _].
  destruct j as [|[|j]]; simpl in Hn; try lia;
    injection Hn as <-; discriminate Hname.
Defined.

(** ** The scale factor and the wire path *)

(** The entry [r] with its [scale] field replaced. *)
Definition rescale (f : register_def_t -> Z) (r : register_def_t) : register_def_t :=
  mk_register_def (name r) (type r) (address r) (defacto r) (f r) (model r)
                  (system r) (subsystem r) (description r).

Lemma find_register_rescale f g_registers nm mask :
  find_register (map (rescale f) g_registers) nm mask
  = option_map (rescale f) (find_register g_registers nm mask).
Proof.
  rewrite !find_register_find.
  induction g_registers as [|r l IH]; simpl; [reflexivity|].
  change (reg_matches nm mask (rescale f r)) with (reg_matches nm mask r).
  destruct (reg_matches nm mask r); [reflexivity | exact IH].
Qed.

(** The accessors never read [scale]: replacing every scale factor in the
    table changes nothing in what an accessor call returns, sends or prints.
    What they exchange with the controller are the raw words. *)
Lemma run_ignores_scale {world} {lib : Modbus world} f g_registers op nm
      (s : state world) :
  run (map (rescale f) g_registers) op nm s = run g_registers op nm s.
Proof.
  destruct op; unfold_driver; rewrite find_register_rescale;
    destruct (g_ctx s); try reflexivity;
    destruct (find_register g_registers nm _); reflexivity.
Qed.

(** ** More on the accessors *)

Section AccessorFacts.

Context {world : Type} {lib : Modbus world}.
Variable g_registers : list register_def_t.

(** X1: an accessor returns [true] exactly when a session is open, the name
    resolves under the accessor's mask, the register is supported by the
    session's model, and the libmodbus request did not return -1.  Any
    other return code of the request, 0 included, counts as success. *)
Theorem accessor_succeeds_iff :
  forall (op : accessor) (nm : string) (s : state world),
    fst (fst (run g_registers op nm s)) = true
    <-> exists c r,
          g_ctx s = Some c
          /\ find_register g_registers nm (kind_mask op) = Some r
          /\ is_register_supported (g_model s) r = true
          /\ fst (request op c r (bus s)) <> -1.
Proof.
  intros op nm s. split.
  - intros Hok.
    destruct (g_ctx s) as [c|] eqn:Hc.
    + destruct (find_register g_registers nm (kind_mask op)) as [r|] eqn:Hf.
      * destruct (is_register_supported (g_model s) r) eqn:Hs.
        -- exists c, r. repeat split; try assumption.
           destruct (run_dispatch g_registers op nm s c r Hc Hf Hs)
             as (ev & _ & [[_ E] | [Hrc _]]); [|assumption].
           rewrite E in Hok. discriminate.
        -- rewrite (run_unsupported g_registers op nm s c r Hc Hf Hs) in Hok.
           discriminate.
      * rewrite (run_not_found g_registers op nm s c Hc Hf) in Hok. discriminate.
    + rewrite (run_closed g_registers op nm s Hc) in Hok. discriminate.
  - intros (c & r & Hc & Hf & Hs & Hrc).
    destruct (run_dispatch g_registers op nm s c r Hc Hf Hs)
      as (ev & _ & [[Hbad _] | [_ [op' E]]]); [contradiction|].
    rewrite E. reflexivity.
Qed.

(** X2: on an open session, a name that does not resolve under the
    accessor's mask makes each of the four accessors return [false] with
    the not-found diagnostic, and no libmodbus function is called: the
    trace, the transport and the session are as before. *)
Theorem failed_lookup_makes_no_request :
  forall (op : accessor) (nm : string) (s : state world) c,
    g_ctx s = Some c ->
    find_register g_registers nm (kind_mask op) = None ->
    let '(res, s') := run g_registers op nm s in
    res = (false, op)
    /\ stderr s' = stderr s ++ [RegisterNotFound nm]
    /\ trace s' = trace s /\ bus s' = bus s
    /\ g_ctx s' = Some c /\ g_model s' = g_model s /\ stdout s' = stdout s.
Proof.
  intros op nm s c Hc Hf.
  rewrite (run_not_found g_registers op nm s c Hc Hf).
  unfold complain; simpl. repeat split; assumption.
Qed.

(** X3: every accessor call puts at most one request on the wire, a
    register request, and prints nothing on stdout.  When it sends none it
    returned [false] after printing one of the three guard diagnostics,
    none of which carries a transport message.  When it sends one, it
    either returns [true] and prints nothing, or returns [false] and prints
    the failure diagnostic built from [modbus_strerror(errno)]: that second
    libmodbus call is made exactly when the request has failed, and it is
    the only libmodbus function an accessor calls besides the request. *)
Theorem accessor_sends_at_most_one_request :
  forall (op : accessor) (nm : string) (s : state world),
    let ok := fst (fst (run g_registers op nm s)) in
    let s' := snd (run g_registers op nm s) in
    stdout s' = stdout s
    /\ ((trace s' = trace s /\ bus s' = bus s /\ ok = false
         /\ (stderr s' = stderr s ++ [NotInitialised]
             \/ stderr s' = stderr s ++ [RegisterNotFound nm]
             \/ stderr s' = stderr s ++ [RegisterNotSupported nm]))
        \/ (exists ev,
              is_register_io ev = true /\ trace s' = trace s ++ [ev]
              /\ ((ok = true /\ stderr s' = stderr s)
                  \/ (ok = false
                      /\ stderr s'
                         = stderr s
                           ++ [io_failure op (modbus_strerror_errno (bus s'))])))).
Proof.
  intros op nm s ok s'. subst ok s'.
  destruct (g_ctx s) as [c|] eqn:Hc.
  - destruct (find_register g_registers nm (kind_mask op)) as [r|] eqn:Hf.
    + destruct (is_register_supported (g_model s) r) eqn:Hs.
      * destruct (run_dispatch g_registers op nm s c r Hc Hf Hs)
          as (ev & Hio & [[_ E] | [_ [op' E]]]); rewrite E; simpl;
          (split; [reflexivity|]); right; exists ev;
          (split; [exact Hio|]); (split; [reflexivity|]).
        -- right. split; reflexivity.
        -- left. split; reflexivity.
      * rewrite (run_unsupported g_registers op nm s c r Hc Hf Hs). simpl.
        split; [reflexivity|]. left. repeat split. right; right; reflexivity.
    + rewrite (run_not_found g_registers op nm s c Hc Hf). simpl.
      split; [reflexivity|]. left. repeat split. right; left; reflexivity.
  - rewrite (run_closed g_registers op nm s Hc). simpl.
    split; [reflexivity|]. left. repeat split. left; reflexivity.
Qed.

(** X4: past the guards, the kind of the resolved register selects the
    libmodbus function: a coil is read with [modbus_read_bits], an input
    status with [modbus_read_input_bits], an input register with
    [modbus_read_input_registers], a holding register with
    [modbus_read_registers]; always one item at the register's address, on
    the session's handle.  A bit write sends 1 for [true] and 0 for
    [false] with [modbus_write_bit]. *)
Theorem request_follows_register_kind :
  forall (nm : string) (s : state world) c r,
    g_ctx s = Some c ->
    is_register_supported (g_model s) r = true ->
    (find_register g_registers nm (Z.lor REG_COIL_STATUS REG_INPUT_STATUS) = Some r ->
     forall v,
       let s' := snd (thermia_modbus_read_register_bit g_registers nm v s) in
       (type r = REG_COIL_STATUS ->
        trace s' = trace s ++ [EvReadBits c (address r) 1])
       /\ (type r = REG_INPUT_STATUS ->
           trace s' = trace s ++ [EvReadInputBits c (address r) 1]))
    /\ (find_register g_registers nm (Z.lor REG_INPUT REG_HOLDING) = Some r ->
        forall v,
          let s' := snd (thermia_modbus_read_register_int g_registers nm v s) in
          (type r = REG_INPUT ->
           trace s' = trace s ++ [EvReadInputRegisters c (address r) 1])
          /\ (type r = REG_HOLDING ->
              trace s' = trace s ++ [EvReadRegisters c (address r) 1]))
    /\ (find_register g_registers nm REG_COIL_STATUS = Some r ->
        forall v,
          let s' := snd (thermia_modbus_write_register_bit g_registers nm v s) in
          trace s' = trace s ++ [EvWriteBit c (address r) (if v then 1 else 0)]).
Proof.
  intros nm s c r Hc Hs. split; [|split].
  - intros H v s'. subst s'. split; intros Hty;
      unfold_driver; rewrite Hc, H, Hs, Hty; simpl.
    + destruct (modbus_read_bits c (address r) 1 (bus s)) as [[rc d] w]; simpl.
      destruct (rc =? -1); reflexivity.
    + destruct (modbus_read_input_bits c (address r) 1 (bus s))
        as [[rc d] w]; simpl.
      destruct (rc =? -1); reflexivity.
  - intros H v s'. subst s'. split; intros Hty;
      unfold_driver; rewrite Hc, H, Hs, Hty; simpl.
    + destruct (modbus_read_input_registers c (address r) 1 (bus s))
        as [[rc d] w]; simpl.
      destruct (rc =? -1); reflexivity.
    + destruct (modbus_read_registers c (address r) 1 (bus s))
        as [[rc d] w]; simpl.
      destruct (rc =? -1); reflexivity.
  - intros H v s'. subst s'. unfold_driver. rewrite Hc, H, Hs. simpl.
    destruct (modbus_write_bit c (address r) (if v then 1 else 0) (bus s))
      as [rc w]; simpl.
    destruct (rc =? -1); reflexivity.
Qed.

(** X5: when [thermia_modbus_read_register_bit] gets past its guards and
    the read does not return -1, it stores [true] exactly when the byte it
    received is not zero: any non-zero byte, not only 1, reads as [true]. *)
Theorem read_bit_true_iff_byte_nonzero :
  forall (nm : string) (v0 : bool) (s : state world) c r,
    g_ctx s = Some c ->
    find_register g_registers nm (Z.lor REG_COIL_STATUS REG_INPUT_STATUS) = Some r ->
    is_register_supported (g_model s) r = true ->
    let reply :=
      (if type r =? REG_COIL_STATUS
       then modbus_read_bits c (address r) 1
       else modbus_read_input_bits c (address r) 1) (bus s) in
    let byte := snd (fst reply) mod 2 ^ 8 in
    fst (fst reply) <> -1 ->
    exists b,
      fst (thermia_modbus_read_register_bit g_registers nm v0 s) = (true, b)
      /\ (b = true <-> byte <> 0).
Proof.
  intros nm v0 s c r Hc Hf Hs reply byte Hrc.
  exists (negb (byte =? 0)). split.
  - subst byte reply. unfold_driver. rewrite Hc, Hf, Hs. simpl.
    destruct (type r =? REG_COIL_STATUS).
    + destruct (modbus_read_bits c (address r) 1 (bus s)) as [[rc d] w];
        simpl in *.
      apply Z.eqb_neq in Hrc. rewrite Hrc. reflexivity.
    + destruct (modbus_read_input_bits c (address r) 1 (bus s)) as [[rc d] w];
        simpl in *.
      apply Z.eqb_neq in Hrc. rewrite Hrc. reflexivity.
  - rewrite negb_true_iff, Z.eqb_neq. reflexivity.
Qed.

End AccessorFacts.

Lemma failed_lookup_makes_no_request_witness :
  let s := opened MODEL_MEGA sample_device in
  let '(res, s') := run sample_registers (ReadInt 7) "noSuchRegister" s in
  res = (false, ReadInt 7)
  /\ stderr s' = stderr s ++ [RegisterNotFound "noSuchRegister"]
  /\ trace s' = trace s /\ bus s' = bus s
  /\ g_ctx s' = Some 1%N /\ g_model s' = g_model s /\ stdout s' = stdout s.
Proof.
  apply (failed_lookup_makes_no_request sample_registers (ReadInt 7)
           "noSuchRegister" (opened MODEL_MEGA sample_device) 1%N);
    reflexivity.
Defined.

Lemma request_follows_register_kind_witness :
  let s := opened MODEL_MEGA sample_device in
  trace (snd (thermia_modbus_read_register_bit sample_registers
                "alarmHeatpumpBrineInSensor" false s))
  = trace s ++ [EvReadInputBits 1%N 60 1].
Proof.
  destruct (request_follows_register_kind sample_registers
              "alarmHeatpumpBrineInSensor" (opened MODEL_MEGA sample_device)
              1%N brine_alarm eq_refl eq_refl) as (Hbit & _ & _).
  apply (Hbit eq_refl false). reflexivity.
Defined.

Lemma read_bit_true_iff_byte_nonzero_witness :
  let s := opened MODEL_MEGA (mk_sim true true [(50, 255)] [] "") in
  exists b,
    fst (thermia_modbus_read_register_bit sample_registers
           "enableHeatpumpResetAllAlarms" false s) = (true, b)
    /\ (b = true <-> 255 mod 2 ^ 8 <> 0).
Proof.
  pose proof (read_bit_true_iff_byte_nonzero sample_registers
                "enableHeatpumpResetAllAlarms" false
                (opened MODEL_MEGA (mk_sim true true [(50, 255)] [] "")) 1%N
                reset_alarms eq_refl eq_refl eq_refl) as H.
  cbv zeta in H. apply H. simpl. lia.
Defined.

(** ** Masks *)

Lemma find_narrow {A} (p q : A -> bool) (l : list A) r :
  (forall x, q x = true -> p x = true) ->
  find p l = Some r -> q r = true -> find q l = Some r.
Proof.
  intros Hqp. induction l as [|a l IH]; simpl; [discriminate|].
  destruct (p a) eqn:Pa.
  - intros [= ->] Hq. rewrite Hq. reflexivity.
  - intros Hf Hq. destruct (q a) eqn:Qa.
    + rewrite (Hqp a Qa) in Pa. discriminate.
    + apply IH; assumption.
Qed.

Lemma find_widen {A} (p q : A -> bool) (l : list A) r :
  (forall x, q x = true -> p x = true) ->
  find q l = Some r -> exists r', find p l = Some r'.
Proof.
  intros Hqp. induction l as [|a l IH]; simpl; [discriminate|].
  destruct (p a) eqn:Pa; [eexists; reflexivity|].
  destruct (q a) eqn:Qa.
  - rewrite (Hqp a Qa) in Pa. discriminate.
  - exact IH.
Qed.

(** A kind inside the mask [a] is inside every mask that includes [a]. *)
Lemma land_submask t a b :
  Z.land a b = a -> Z.land t a <> 0 -> Z.land t b <> 0.
Proof.
  intros Hab Hta Htb. apply Hta.
  rewrite <- Hab, Z.land_assoc, (Z.land_comm t a), <- Z.land_assoc, Htb.
  apply Z.land_0_r.
Qed.

Lemma land_lor_absorb a b : Z.land a (Z.lor a b) = a.
Proof.
  apply Z.bits_inj'. intros n Hn.
  rewrite Z.land_spec, Z.lor_spec.
  destruct (Z.testbit a n); reflexivity.
Qed.

Lemma reg_matches_submask nm a b r :
  Z.land a b = a -> reg_matches nm a r = true -> reg_matches nm b r = true.
Proof.
  intros Hab Hm. apply reg_matches_spec in Hm. destruct Hm as [Hn Hk].
  apply reg_matches_spec. split; [assumption|].
  exact (land_submask _ _ _ Hab Hk).
Qed.

Lemma find_register_narrow g_registers nm a b r :
  Z.land a b = a ->
  find_register g_registers nm b = Some r ->
  Z.land (type r) a <> 0 ->
  find_register g_registers nm a = Some r.
Proof.
  rewrite !find_register_find. intros Hab Hf Hk.
  apply (find_narrow (reg_matches nm b)); try assumption.
  - intros x. apply reg_matches_submask. exact Hab.
  - apply find_some in Hf. destruct Hf as [_ Hm].
    apply reg_matches_spec in Hm. apply reg_matches_spec.
    split; [apply Hm | assumption].
Qed.

Section MaskFacts.

Variable g_registers : list register_def_t.

(** X6: lookups under a mask and under a wider mask agree where they can.
    If [a] is included in [b]: a name that resolves under [a] resolves
    under [b] (what can be written can be looked up for reading), and the
    entry found under [b], when its kind lies in [a], is the entry found
    under [a].  So the command line, which looks a name up under all four
    kinds and then calls the accessor for the kind it found, has the
    accessor find that same entry. *)
Theorem find_register_mask_inclusion :
  forall (nm : string) (a b : reg_type_t),
    Z.land a b = a ->
    (forall r, find_register g_registers nm a = Some r ->
               exists r', find_register g_registers nm b = Some r')
    /\ (forall r, find_register g_registers nm b = Some r ->
                  Z.land (type r) a <> 0 ->
                  find_register g_registers nm a = Some r).
Proof.
  intros nm a b Hab. split.
  - intros r. rewrite !find_register_find.
    apply find_widen. intros x. apply reg_matches_submask. exact Hab.
  - intros r Hf Hk. exact (find_register_narrow _ nm a b r Hab Hf Hk).
Qed.

(** X7: the entry found under the union of two masks is the entry found
    under one of them, and a name found under neither is not found under
    their union. *)
Theorem find_register_union_mask :
  forall (nm : string) (a b : reg_type_t),
    (forall r, find_register g_registers nm (Z.lor a b) = Some r ->
               find_register g_registers nm a = Some r
               \/ find_register g_registers nm b = Some r)
    /\ (find_register g_registers nm a = None ->
        find_register g_registers nm b = None ->
        find_register g_registers nm (Z.lor a b) = None).
Proof.
  intros nm a b.
  assert (Ha : Z.land a (Z.lor a b) = a) by apply land_lor_absorb.
  assert (Hb : Z.land b (Z.lor a b) = b)
    by (rewrite Z.lor_comm; apply land_lor_absorb).
  assert (Hsplit : forall r,
             find_register g_registers nm (Z.lor a b) = Some r ->
             find_register g_registers nm a = Some r
             \/ find_register g_registers nm b = Some r).
  { intros r Hf.
    assert (Hk : Z.land (type r) (Z.lor a b) <> 0).
    { apply find_register_first_match in Hf.
      destruct Hf as (k & _ & _ & Hk & _). exact Hk. }
    destruct (Z.eq_dec (Z.land (type r) a) 0) as [Za|Na].
    - right.
      apply (find_register_narrow _ nm b (Z.lor a b) r Hb Hf).
      intros Zb. apply Hk. rewrite Z.land_lor_distr_r, Za, Zb. reflexivity.
    - left.
      exact (find_register_narrow _ nm a (Z.lor a b) r Ha Hf Na). }
  split; [exact Hsplit|].
  intros Na Nb.
  destruct (find_register g_registers nm (Z.lor a b)) as [r|] eqn:E;
    [|reflexivity].
  destruct (Hsplit r eq_refl); congruence.
Qed.

End MaskFacts.

Lemma find_register_mask_inclusion_witness :
  (exists r', find_register sample_registers "valueHeatpumpBrineInTemperature"
                (Z.lor REG_INPUT REG_HOLDING) = Some r')
  /\ find_register sample_registers "enableHeatpumpResetAllAlarms"
       REG_COIL_STATUS = Some reset_alarms.
Proof.
  split.
  - apply (proj1 (find_register_mask_inclusion sample_registers
                    "valueHeatpumpBrineInTemperature" REG_HOLDING
                    (Z.lor REG_INPUT REG_HOLDING) eq_refl) brine_in).
    reflexivity.
  - apply (proj2 (find_register_mask_inclusion sample_registers
                    "enableHeatpumpResetAllAlarms" REG_COIL_STATUS
                    (Z.lor (Z.lor REG_COIL_STATUS REG_INPUT_STATUS)
                           (Z.lor REG_INPUT REG_HOLDING)) eq_refl) reset_alarms).
    + reflexivity.
    + discriminate.
Defined.

(** ** Signed values across the wire *)

Lemma int16_uint16_congruent z : int16 (uint16 z) mod 2 ^ 16 = z mod 2 ^ 16.
Proof.
  unfold int16, uint16.
  replace ((z mod 2 ^ 16 + 2 ^ 15) mod 2 ^ 16 - 2 ^ 15)
    with ((z mod 2 ^ 16 + 2 ^ 15) mod 2 ^ 16 + (- 2 ^ 15)) by lia.
  rewrite Z.add_mod_idemp_l by lia.
  replace (z mod 2 ^ 16 + 2 ^ 15 + - 2 ^ 15) with (z mod 2 ^ 16) by lia.
  apply Z.mod_mod. lia.
Qed.

Lemma int16_uint16_id z : - 2 ^ 15 <= z < 2 ^ 15 -> int16 (uint16 z) = z.
Proof.
  intros Hz.
  pose proof (int16_range (uint16 z)) as Hr.
  pose proof (int16_uint16_congruent z) as Hc.
  assert (Hd : (int16 (uint16 z) - z) mod 2 ^ 16 = 0).
  { rewrite Zminus_mod, Hc, Z.sub_diag. reflexivity. }
  apply Z.mod_divide in Hd; [|lia].
  destruct Hd as [k Hk]. lia.
Qed.

Section RoundTrip.

Context {world : Type} {lib : Modbus world}.
Variable g_registers : list register_def_t.

(** X8: what [thermia_modbus_write_register_int] sends for [v] is the word
    [v mod 2^16]; when [thermia_modbus_read_register_int] later receives
    that word it stores the number in [-2^15, 2^15) congruent to [v] modulo
    [2^16].  So a value in the signed 16-bit range is read back unchanged,
    and a value outside it is read back wrapped into that range. *)
Theorem signed_value_round_trip :
  forall (nm : string) (v v0 : Z) (s : state world) c r,
    g_ctx s = Some c ->
    find_register g_registers nm (Z.lor REG_INPUT REG_HOLDING) = Some r ->
    is_register_supported (g_model s) r = true ->
    let reply :=
      (if type r =? REG_INPUT
       then modbus_read_input_registers c (address r) 1
       else modbus_read_registers c (address r) 1) (bus s) in
    fst (fst reply) <> -1 ->
    snd (fst reply) = v mod 2 ^ 16 ->
    exists x,
      fst (thermia_modbus_read_register_int g_registers nm v0 s) = (true, x)
      /\ - 2 ^ 15 <= x < 2 ^ 15
      /\ x mod 2 ^ 16 = v mod 2 ^ 16
      /\ (- 2 ^ 15 <= v < 2 ^ 15 -> x = v).
Proof.
  intros nm v v0 s c r Hc Hf Hs reply Hrc Hword.
  exists (int16 (uint16 v)).
  assert (Hrun : fst (thermia_modbus_read_register_int g_registers nm v0 s)
                 = (true, int16 (uint16 (snd (fst reply))))).
  { subst reply. unfold_driver. rewrite Hc, Hf, Hs. simpl.
    destruct (type r =? REG_INPUT).
    - destruct (modbus_read_input_registers c (address r) 1 (bus s))
        as [[rc d] w]; simpl in *.
      apply Z.eqb_neq in Hrc. rewrite Hrc. reflexivity.
    - destruct (modbus_read_registers c (address r) 1 (bus s))
        as [[rc d] w]; simpl in *.
      apply Z.eqb_neq in Hrc. rewrite Hrc. reflexivity. }
  repeat split.
  - rewrite Hrun, Hword. f_equal. f_equal. unfold uint16.
    apply Z.mod_mod. lia.
  - apply int16_range.
  - apply int16_range.
  - apply int16_uint16_congruent.
  - apply int16_uint16_id.
Qed.

End RoundTrip.

(** Writing -10 and 40000 to the simulated controller and reading back. *)
Definition write_then_read (v : Z) : bool * Z :=
  let s0 := opened MODEL_MEGA sample_device in
  let s1 := snd (thermia_modbus_write_register_int sample_registers
                   "valueHeatpumpBrineInTemperature" v s0) in
  fst (thermia_modbus_read_register_int sample_registers
         "valueHeatpumpBrineInTemperature" 0 s1).

Lemma signed_value_round_trip_witness :
  exists x, write_then_read (-10) = (true, x)
            /\ - 2 ^ 15 <= x < 2 ^ 15
            /\ x mod 2 ^ 16 = (-10) mod 2 ^ 16
            /\ (- 2 ^ 15 <= -10 < 2 ^ 15 -> x = -10).
Proof.
  unfold write_then_read.
  apply (signed_value_round_trip sample_registers
           "valueHeatpumpBrineInTemperature" (-10) 0 _ 1%N brine_in);
    try reflexivity.
  simpl. lia.
Defined.

Example out_of_range_value_wraps : write_then_read 40000 = (true, -25536).
Proof. reflexivity. Qed.

(** ** The library calls of a session *)

Ltac unfold_session :=
  unfold thermia_modbus_open, thermia_modbus_close, bind, ret, fprintf_stderr,
    strerror, call_void, call, assign_g_model, assign_g_ctx, set_g_model,
    set_g_ctx, printf.

Section SessionCalls.

Context {world : Type} {lib : Modbus world}.

(** The line [thermia_modbus_open] prints once connected. *)
Definition connected_line (ip : string) (mdl : model_t) : string :=
  ("modbus: connected to " ++ ip ++ ":502 (model: "
   ++ (if (mdl =? MODEL_MEGA)%Z then "MEGA" else "INVERTER") ++ ")" ++ nl)%string.

(** X9: [thermia_modbus_open] from the closed state.  It stores the model
    first, so [g_model] is the requested model afterwards even when the
    call fails.  It calls [modbus_new_tcp]; on [NULL] it makes no further
    call and fails.  Otherwise it sets slave 1 and connects, in that order;
    when the connect returns -1 it frees the handle without closing it,
    leaves [g_ctx] [NULL] and fails; when not, it keeps the handle, prints
    the connected line (which names port 502 whatever port was passed) and
    succeeds.  Each failure prints the transport's message. *)
Theorem open_from_closed_protocol :
  forall (ip : string) (port : Z) (mdl : model_t) (s : state world),
    g_ctx s = None ->
    let '(ok, s') := thermia_modbus_open ip port mdl s in
    g_model s' = mdl
    /\ match modbus_new_tcp ip port (bus s) with
       | (None, w0) =>
           ok = false /\ g_ctx s' = None /\ bus s' = w0
           /\ trace s' = trace s ++ [EvNewTcp ip port]
           /\ stderr s' = stderr s ++ [InitialisationFailed (modbus_strerror_errno w0)]
           /\ stdout s' = stdout s
       | (Some c, w0) =>
           let w1 := snd (modbus_set_slave c 1 w0) in
           let rc := fst (modbus_connect c w1) in
           let w2 := snd (modbus_connect c w1) in
           if rc =? -1 then
             ok = false /\ g_ctx s' = None /\ bus s' = modbus_free c w2
             /\ trace s' = trace s ++ [EvNewTcp ip port; EvSetSlave c 1;
                                       EvConnect c; EvFree c]
             /\ stderr s' = stderr s ++ [ConnectionFailed (modbus_strerror_errno w2)]
             /\ stdout s' = stdout s
           else
             ok = true /\ g_ctx s' = Some c /\ bus s' = w2
             /\ trace s' = trace s ++ [EvNewTcp ip port; EvSetSlave c 1; EvConnect c]
             /\ stderr s' = stderr s
             /\ stdout s' = stdout s ++ [connected_line ip mdl]
       end.
Proof.
  intros ip port mdl s Hc. unfold connected_line.
  unfold_session. rewrite Hc. simpl.
  destruct (modbus_new_tcp ip port (bus s)) as [[c|] w0]; simpl.
  - destruct (modbus_set_slave c 1 w0) as [rs w1]; simpl.
    destruct (modbus_connect c w1) as [rc w2]; simpl.
    destruct (rc =? -1); simpl; rewrite <- ?app_assoc; simpl;
      repeat split; reflexivity.
  - repeat split; reflexivity.
Qed.

(** X10: opening from the closed state and then closing leaves the session
    closed and every handle that [modbus_new_tcp] returned freed exactly
    once: [modbus_close] is called before the free only when the connect
    had succeeded, and when no handle was returned nothing is closed or
    freed. *)
Theorem open_then_close_frees_handle_once :
  forall (ip : string) (port : Z) (mdl : model_t) (s : state world),
    g_ctx s = None ->
    let s1 := snd (thermia_modbus_open ip port mdl s) in
    let s2 := snd (thermia_modbus_close s1) in
    g_ctx s2 = None
    /\ match fst (modbus_new_tcp ip port (bus s)) with
       | None => trace s2 = trace s ++ [EvNewTcp ip port]
       | Some c =>
           (g_ctx s1 = Some c
            /\ trace s2 = trace s ++ [EvNewTcp ip port; EvSetSlave c 1; EvConnect c;
                                      EvClose c; EvFree c])
           \/ (g_ctx s1 = None
               /\ trace s2 = trace s ++ [EvNewTcp ip port; EvSetSlave c 1;
                                         EvConnect c; EvFree c])
       end.
Proof.
  intros ip port mdl s Hc s1 s2. subst s2 s1.
  unfold_session. rewrite Hc. simpl.
  destruct (modbus_new_tcp ip port (bus s)) as [[c|] w0]; simpl.
  - destruct (modbus_set_slave c 1 w0) as [rs w1]; simpl.
    destruct (modbus_connect c w1) as [rc w2]; simpl.
    destruct (rc =? -1); simpl; rewrite <- ?app_assoc; simpl.
    + split; [reflexivity|]. right. split; reflexivity.
    + split; [reflexivity|]. left. split; reflexivity.
  - split; reflexivity.
Qed.

End SessionCalls.

Lemma open_from_closed_protocol_witness :
  let s := initial (mk_sim false true [] [] "No route to host") in
  let '(ok, s') := thermia_modbus_open "192.168.0.106" 1502 MODEL_INVERTER s in
  ok = false /\ g_ctx s' = None /\ g_model s' = MODEL_INVERTER
  /\ trace s' = [EvNewTcp "192.168.0.106" 1502; EvSetSlave 1%N 1;
                 EvConnect 1%N; EvFree 1%N].
Proof.
  pose proof (open_from_closed_protocol "192.168.0.106" 1502 MODEL_INVERTER
                (initial (mk_sim false true [] [] "No route to host")) eq_refl)
    as H.
  simpl in *. destruct H as (Hm & Hok & Hc & _ & Ht & _).
  repeat split; assumption.
Defined.

Lemma open_then_close_frees_handle_once_witness :
  let s := initial sample_device in
  let s1 := snd (thermia_modbus_open "192.168.0.106" 502 MODEL_MEGA s) in
  g_ctx (snd (thermia_modbus_close s1)) = None.
Proof.
  apply (open_then_close_frees_handle_once "192.168.0.106" 502 MODEL_MEGA
           (initial sample_device) eq_refl).
Defined.

(** ** The command line ([main], built with [-DTEST]) *)

From Stdlib Require DecimalString.

(** [printf("%d", z)] *)
Definition percent_d (z : Z) : string :=
  DecimalString.NilZero.string_of_int (Z.to_int z).

Definition EXIT_SUCCESS : Z := 0.
Definition EXIT_FAILURE : Z := 1.

(** The mask [main] looks a register up under before a read, and before a
    write. *)
Definition ANY_KIND : reg_type_t :=
  Z.lor (Z.lor (Z.lor REG_COIL_STATUS REG_INPUT_STATUS) REG_INPUT) REG_HOLDING.
Definition WRITABLE_KIND : reg_type_t := Z.lor REG_COIL_STATUS REG_HOLDING.

(** One constructor per [fprintf(stderr, ...)] of [main]. *)
Inductive cli_diag :=
| ModelUnknown (model_str : string)
| CliRegisterNotFound (reg_name : string)
| MissingValue
| OperationUnknown (operation : string).

Definition cli_message (d : cli_diag) : string :=
  (match d with
   | ModelUnknown m => "model unknown, must be 'mega' or 'inverter': " ++ m
   | CliRegisterNotFound n => "register: not found '" ++ n ++ "'"
   | MissingValue => "register: missing value for write operation"
   | OperationUnknown o => "operation unknown: " ++ o
   end ++ nl)%string.

(** [print_usage]: the lines it prints, in order. *)
Definition usage_lines (prog : string) : list string :=
  [ ("Usage:" ++ nl)%string;
    ("  " ++ prog ++ " <address> <model> read <register_name>" ++ nl)%string;
    ("  " ++ prog ++ " <address> <model> write <register_name> <value>" ++ nl)%string;
    nl;
    ("Models: mega, inverter" ++ nl)%string;
    nl;
    ("Examples:" ++ nl)%string;
    ("  " ++ prog ++ " 192.168.0.106 mega read valueHeatpumpBrineInTemperature"
          ++ nl)%string;
    ("  " ++ prog ++ " 192.168.0.106 mega read alarmHeatpumpBrineInSensor"
          ++ nl)%string;
    ("  " ++ prog ++ " 192.168.0.106 mega write enableHeatpumpResetAllAlarms 1"
          ++ nl)%string ].

Section CommandLine.

Context {world : Type} {lib : Modbus world}.
Variable g_registers : list register_def_t.

(** libc's [atoi]. *)
Variable atoi : string -> Z.
(** The text [printf("%.2f", (double)value / scale)] produces, as a
    function of [value] and [scale]. *)
Variable percent_2f_quotient : Z -> Z -> string.
(** What the uninitialised locals [bool value] and [int value] hold. *)
Variable indeterminate_bool : bool.
Variable indeterminate_int : Z.

(** The process while [main] runs: the driver's state, and the lines
    [main] itself put on stderr, each with the number of driver
    diagnostics printed before it. *)
Record cli_state := mk_cli {
  proc : state world;
  cli_stderr : list (nat * cli_diag)
}.

Definition CLI (A : Type) : Type := cli_state -> A * cli_state.

Definition cli_ret {A} (a : A) : CLI A := fun cs => (a, cs).
Definition cli_bind {A B} (m : CLI A) (k : A -> CLI B) : CLI B :=
  fun cs => let (a, cs') := m cs in k a cs'.

Notation "x <-- m ;; k" := (cli_bind m (fun x => k))
  (at level 61, m at next level, right associativity).
Notation "m ;;;; k" := (cli_bind m (fun _ => k))
  (at level 61, right associativity).

(** A driver call, or a [printf], made by [main]. *)
Definition driver {A} (m : M A) : CLI A :=
  fun cs => let (a, s') := m (proc cs) in (a, mk_cli s' (cli_stderr cs)).

Definition cli_fprintf_stderr (d : cli_diag) : CLI unit :=
  fun cs => (tt, mk_cli (proc cs)
                        (cli_stderr cs ++ [(length (stderr (proc cs)), d)])).

Fixpoint print_lines (ls : list string) : CLI unit :=
  match ls with
  | [] => cli_ret tt
  | l :: ls' => driver (printf l) ;;;; print_lines ls'
  end.

Definition print_usage (prog : string) : CLI unit :=
  print_lines (usage_lines prog).

(** The body of the [for] loop of the read branch; [false] stands for
    [goto failure]. *)
Definition read_one (reg_name : string) : CLI bool :=
  match find_register g_registers reg_name ANY_KIND with
  | None =>
      cli_fprintf_stderr (CliRegisterNotFound reg_name) ;;;;
      cli_ret false
  | Some reg =>
      (if (type reg =? REG_COIL_STATUS) || (type reg =? REG_INPUT_STATUS)
       then
         r <-- driver (thermia_modbus_read_register_bit g_registers reg_name
                         indeterminate_bool) ;;
         if fst r
         then driver (printf (reg_name ++ " = "
                              ++ percent_d (if snd r then 1 else 0)
                              ++ " (read)" ++ nl)%string)
         else cli_ret tt
       else
         r <-- driver (thermia_modbus_read_register_int g_registers reg_name
                         indeterminate_int) ;;
         if fst r
         then
           if scale reg >? 1
           then driver (printf (reg_name ++ " = "
                                ++ percent_2f_quotient (snd r) (scale reg)
                                ++ " (read) (raw = " ++ percent_d (snd r)
                                ++ ")" ++ nl)%string)
           else driver (printf (reg_name ++ " = " ++ percent_d (snd r)
                                ++ " (read)" ++ nl)%string)
         else cli_ret tt) ;;;;
      cli_ret true
  end.

(** [for (int argi = 4; argi < argc; argi++)] over [argv[4..]]. *)
Fixpoint read_loop (names : list string) : CLI bool :=
  match names with
  | [] => cli_ret true
  | reg_name :: rest =>
      ok <-- read_one reg_name ;;
      if ok then read_loop rest else cli_ret false
  end.

(** The write branch; [false] stands for [goto failure]. *)
Definition write_branch (argv : list string) : CLI bool :=
  if (length argv <? 6)%nat then
    cli_fprintf_stderr MissingValue ;;;; cli_ret false
  else
    let reg_name := nth 4 argv "" in
    match find_register g_registers reg_name WRITABLE_KIND with
    | None =>
        cli_fprintf_stderr (CliRegisterNotFound reg_name) ;;;;
        cli_ret false
    | Some reg =>
        let value := atoi (nth 5 argv "") in
        (if type reg =? REG_COIL_STATUS
         then
           ok <-- driver (thermia_modbus_write_register_bit g_registers reg_name
                            (negb (value =? 0))) ;;
           if ok
           then driver (printf (reg_name ++ " = " ++ percent_d value
                                ++ " (write)" ++ nl)%string)
           else cli_ret tt
         else
           ok <-- driver (thermia_modbus_write_register_int g_registers reg_name
                            value) ;;
           if ok
           then driver (printf (reg_name ++ " = " ++ percent_d value
                                ++ " (write)" ++ nl)%string)
           else cli_ret tt) ;;;;
        cli_ret true
    end.

(** [int main(int argc, char *argv[])], [argc] being the length of [argv]. *)
Definition main (argv : list string) : CLI Z :=
  if (length argv <? 5)%nat then
    print_usage (nth 0 argv "") ;;;; cli_ret 1
  else
    let ip := nth 1 argv "" in
    let model_str := nth 2 argv "" in
    let operation := nth 3 argv "" in
    let after_model (mdl : model_t) : CLI Z :=
      opened_ok <-- driver (thermia_modbus_open ip 502 mdl) ;;
      if negb opened_ok then cli_ret EXIT_FAILURE
      else
        completed <--
          (if strcmp operation "read" =? 0 then read_loop (skipn 4 argv)
           else if strcmp operation "write" =? 0 then write_branch argv
           else cli_fprintf_stderr (OperationUnknown operation) ;;;;
                cli_ret false) ;;
        driver thermia_modbus_close ;;;;
        cli_ret (if completed then EXIT_SUCCESS else EXIT_FAILURE) in
    if strcmp model_str "mega" =? 0 then after_model MODEL_MEGA
    else if strcmp model_str "inverter" =? 0 then after_model MODEL_INVERTER
    else
      cli_fprintf_stderr (ModelUnknown model_str) ;;;;
      cli_ret EXIT_FAILURE.

End CommandLine.

Arguments cli_state world : clear implicits.
Arguments CLI world A : clear implicits.

(** ** What a run adds to the trace and to stderr *)

Definition is_read_request (ev : modbus_call) : bool :=
  match ev with
  | EvReadBits _ _ _ | EvReadInputBits _ _ _
  | EvReadRegisters _ _ _ | EvReadInputRegisters _ _ _ => true
  | _ => false
  end.

Definition is_write_request (ev : modbus_call) : bool :=
  match ev with
  | EvWriteBit _ _ _ | EvWriteRegister _ _ _ => true
  | _ => false
  end.

(** The requests an accessor may make: reads for the read accessors, writes
    for the write accessors. *)
Definition op_event (op : accessor) (ev : modbus_call) : bool :=
  match op with
  | ReadBit _ | ReadInt _ => is_read_request ev
  | WriteBit _ | WriteInt _ => is_write_request ev
  end.

(** The number of register requests in a stretch of the trace. *)
Definition requests (t : list modbus_call) : nat :=
  length (filter is_register_io t).

Lemma requests_app t1 t2 : requests (t1 ++ t2) = (requests t1 + requests t2)%nat.
Proof. unfold requests. rewrite filter_app, length_app. reflexivity. Qed.

Section Growth.

Context {world : Type} {lib : Modbus world}.
Variable g_registers : list register_def_t.

(** Running [m] adds [t] to the trace and [d] to the driver's stderr, with
    at most [n] register requests in [t], every call of [t] in [R] and
    every diagnostic of [d] in [D]. *)
Definition mgrows {A} (n : nat) (R : modbus_call -> Prop) (D : diag -> Prop)
           (m : M A) : Prop :=
  forall s : state world, exists t d,
    trace (snd (m s)) = trace s ++ t
    /\ stderr (snd (m s)) = stderr s ++ d
    /\ (requests t <= n)%nat /\ Forall R t /\ Forall D d.

(** The same through [run], with the accessor's return value: past the
    guards the one call is a request of the accessor's direction. *)
Lemma run_adds op nm (s : state world) :
  exists t d,
    trace (snd (run g_registers op nm s)) = trace s ++ t
    /\ stderr (snd (run g_registers op nm s)) = stderr s ++ d
    /\ (requests t <= 1)%nat
    /\ Forall (fun ev => op_event op ev = true) t
    /\ Forall (fun x => (forall n, x <> RegisterNotFound n)
                        \/ find_register g_registers nm (kind_mask op) = None) d.
Proof.
  destruct (g_ctx s) as [c|] eqn:Hc.
  - destruct (find_register g_registers nm (kind_mask op)) as [r|] eqn:Hf.
    + destruct (is_register_supported (g_model s) r) eqn:Hs.
      * assert (Hev : exists ev, op_event op ev = true
                  /\ is_register_io ev = true
                  /\ trace (snd (run g_registers op nm s)) = trace s ++ [ev]
                  /\ (stderr (snd (run g_registers op nm s)) = stderr s ++ []
                      \/ exists e, stderr (snd (run g_registers op nm s))
                                   = stderr s ++ [io_failure op e])).
        { destruct op; unfold_driver; rewrite Hc, Hf, Hs; simpl;
            rewrite ?app_nil_r.
          - destruct (type r =? REG_COIL_STATUS).
            + destruct (modbus_read_bits c (address r) 1 (bus s)) as [[rc d] w].
              exists (EvReadBits c (address r) 1).
              simpl; destruct (rc =? -1); simpl; repeat split; eauto.
            + destruct (modbus_read_input_bits c (address r) 1 (bus s))
                as [[rc d] w].
              exists (EvReadInputBits c (address r) 1).
              simpl; destruct (rc =? -1); simpl; repeat split; eauto.
          - destruct (type r =? REG_INPUT).
            + destruct (modbus_read_input_registers c (address r) 1 (bus s))
                as [[rc d] w].
              exists (EvReadInputRegisters c (address r) 1).
              simpl; destruct (rc =? -1); simpl; repeat split; eauto.
            + destruct (modbus_read_registers c (address r) 1 (bus s))
                as [[rc d] w].
              exists (EvReadRegisters c (address r) 1).
              simpl; destruct (rc =? -1); simpl; repeat split; eauto.
          - destruct (modbus_write_bit c (address r) (if value then 1 else 0)
                        (bus s)) as [rc w].
            exists (EvWriteBit c (address r) (if value then 1 else 0)).
            simpl; destruct (rc =? -1); simpl; repeat split; eauto.
          - destruct (modbus_write_register c (address r) (uint16 value) (bus s))
              as [rc w].
            exists (EvWriteRegister c (address r) (uint16 value)).
            simpl; destruct (rc =? -1); simpl; repeat split; eauto. }
        destruct Hev as (ev & Hop & Hio & Ht & [Hd | [e Hd]]).
        -- exists [ev], []. repeat split; auto.
           unfold requests; simpl; rewrite Hio; simpl; lia.
        -- exists [ev], [io_failure op e]. repeat split; auto.
           ++ unfold requests; simpl; rewrite Hio; simpl; lia.
           ++ constructor; [|constructor]. left. intros n.
              destruct op; discriminate.
      * rewrite (run_unsupported g_registers op nm s c r Hc Hf Hs). simpl.
        exists [], [RegisterNotSupported nm]. rewrite app_nil_r.
        repeat split; auto. constructor; [|constructor].
        left. intros n. discriminate.
    + rewrite (run_not_found g_registers op nm s c Hc Hf). simpl.
      exists [], [RegisterNotFound nm]. rewrite app_nil_r.
      repeat split; auto.
  - rewrite (run_closed g_registers op nm s Hc). simpl.
    exists [], [NotInitialised]. rewrite app_nil_r.
    repeat split; auto. constructor; [|constructor].
    left. intros n. discriminate.
Qed.

End Growth.

(** An entry whose kind is one of the four the generator emits. *)
Definition single_kind (r : register_def_t) : Prop :=
  type r = REG_COIL_STATUS \/ type r = REG_INPUT_STATUS
  \/ type r = REG_INPUT \/ type r = REG_HOLDING.

Section DriverGrowth.

Context {world : Type} {lib : Modbus world}.
Variable g_registers : list register_def_t.
Variable R : modbus_call -> Prop.
Variable D : diag -> Prop.
Hypothesis R_session : forall ev, is_register_io ev = false -> R ev.
Hypothesis D_other : forall x, (forall n, x <> RegisterNotFound n) -> D x.

Lemma mgrows_run op nm :
  (forall ev, op_event op ev = true -> R ev) ->
  (find_register g_registers nm (kind_mask op) <> None \/ forall x, D x) ->
  mgrows (world := world) 1 R D (run g_registers op nm).
Proof.
  intros HR HD s.
  destruct (run_adds g_registers op nm s) as (t & d & Ht & Hd & Hn & Hev & Hdg).
  exists t, d. repeat split; try assumption.
  - eapply Forall_impl; [|exact Hev]. exact HR.
  - eapply Forall_impl; [|exact Hdg]. intros x [Hx | Hnone].
    + exact (D_other x Hx).
    + destruct HD as [Hsome | Hall]; [contradiction | apply Hall].
Qed.

Lemma mgrows_read_bit nm v :
  (forall ev, is_read_request ev = true -> R ev) ->
  (find_register g_registers nm (Z.lor REG_COIL_STATUS REG_INPUT_STATUS) <> None
   \/ forall x, D x) ->
  mgrows (world := world) 1 R D
         (thermia_modbus_read_register_bit g_registers nm v).
Proof.
  intros HR HD s.
  destruct (mgrows_run (ReadBit v) nm HR HD s) as (t & d & Ht & Hd & Hrest).
  exists t, d. unfold run in Ht, Hd.
  destruct (thermia_modbus_read_register_bit g_registers nm v s) as [[r v'] s'].
  repeat split; try assumption; apply Hrest.
Qed.

Lemma mgrows_read_int nm v :
  (forall ev, is_read_request ev = true -> R ev) ->
  (find_register g_registers nm (Z.lor REG_INPUT REG_HOLDING) <> None
   \/ forall x, D x) ->
  mgrows (world := world) 1 R D
         (thermia_modbus_read_register_int g_registers nm v).
Proof.
  intros HR HD s.
  destruct (mgrows_run (ReadInt v) nm HR HD s) as (t & d & Ht & Hd & Hrest).
  exists t, d. unfold run in Ht, Hd.
  destruct (thermia_modbus_read_register_int g_registers nm v s) as [[r v'] s'].
  repeat split; try assumption; apply Hrest.
Qed.

Lemma mgrows_write_bit nm v :
  (forall ev, is_write_request ev = true -> R ev) ->
  (find_register g_registers nm REG_COIL_STATUS <> None \/ forall x, D x) ->
  mgrows (world := world) 1 R D
         (thermia_modbus_write_register_bit g_registers nm v).
Proof.
  intros HR HD s.
  destruct (mgrows_run (WriteBit v) nm HR HD s) as (t & d & Ht & Hd & Hrest).
  exists t, d. unfold run in Ht, Hd.
  destruct (thermia_modbus_write_register_bit g_registers nm v s) as [r s'].
  repeat split; try assumption; apply Hrest.
Qed.

Lemma mgrows_write_int nm v :
  (forall ev, is_write_request ev = true -> R ev) ->
  (find_register g_registers nm REG_HOLDING <> None \/ forall x, D x) ->
  mgrows (world := world) 1 R D
         (thermia_modbus_write_register_int g_registers nm v).
Proof.
  intros HR HD s.
  destruct (mgrows_run (WriteInt v) nm HR HD s) as (t & d & Ht & Hd & Hrest).
  exists t, d. unfold run in Ht, Hd.
  destruct (thermia_modbus_write_register_int g_registers nm v s) as [r s'].
  repeat split; try assumption; apply Hrest.
Qed.

Lemma mgrows_printf line : mgrows (world := world) 0 R D (printf line).
Proof.
  intros s. exists [], []. simpl. rewrite !app_nil_r. repeat split; auto.
Qed.

Lemma mgrows_open ip port mdl :
  mgrows (world := world) 0 R D (thermia_modbus_open ip port mdl).
Proof.
  intros s. unfold_session.
  destruct (g_ctx s) as [c0|]; simpl.
  - exists [], [InitialisedAlready]. rewrite app_nil_r.
    repeat split; auto. constructor; [|constructor].
    apply D_other. discriminate.
  - destruct (modbus_new_tcp ip port (bus s)) as [[c|] w0]; simpl.
    + destruct (modbus_set_slave c 1 w0) as [rs w1]; simpl.
      destruct (modbus_connect c w1) as [rc w2]; simpl.
      destruct (rc =? -1); simpl; rewrite <- ?app_assoc; simpl.
      * exists [EvNewTcp ip port; EvSetSlave c 1; EvConnect c; EvFree c],
               [ConnectionFailed (modbus_strerror_errno w2)].
        split; [reflexivity|]. split; [reflexivity|].
        split; [unfold requests; simpl; lia|]. split.
        -- repeat constructor; apply R_session; reflexivity.
        -- constructor; [|constructor]. apply D_other. discriminate.
      * exists [EvNewTcp ip port; EvSetSlave c 1; EvConnect c], [].
        rewrite app_nil_r.
        split; [reflexivity|]. split; [reflexivity|].
        split; [unfold requests; simpl; lia|]. split.
        -- repeat constructor; apply R_session; reflexivity.
        -- constructor.
    + exists [EvNewTcp ip port], [InitialisationFailed (modbus_strerror_errno w0)].
      split; [reflexivity|]. split; [reflexivity|].
      split; [unfold requests; simpl; lia|]. split.
      * repeat constructor; apply R_session; reflexivity.
      * constructor; [|constructor]. apply D_other. discriminate.
Qed.

Lemma mgrows_close : mgrows (world := world) 0 R D thermia_modbus_close.
Proof.
  intros s. unfold_session.
  destruct (g_ctx s) as [c|]; simpl.
  - rewrite <- app_assoc. simpl. exists [EvClose c; EvFree c], [].
    rewrite app_nil_r.
    split; [reflexivity|]. split; [reflexivity|].
    split; [unfold requests; simpl; lia|]. split.
    + repeat constructor; apply R_session; reflexivity.
    + constructor.
  - exists [], []. rewrite !app_nil_r. repeat split; auto.
Qed.

End DriverGrowth.

Ltac unfold_cli :=
  unfold cli_bind, cli_ret, driver, cli_fprintf_stderr in *.

Section CommandLineGrowth.

Context {world : Type} {lib : Modbus world}.
Variable g_registers : list register_def_t.
Variable atoi : string -> Z.
Variable percent_2f_quotient : Z -> Z -> string.
Variable indeterminate_bool : bool.
Variable indeterminate_int : Z.

Variable R : modbus_call -> Prop.
Variable D : diag -> Prop.
Hypothesis R_session : forall ev, is_register_io ev = false -> R ev.
Hypothesis D_other : forall x, (forall n, x <> RegisterNotFound n) -> D x.
Hypothesis D_lookup : Forall single_kind g_registers \/ forall x, D x.

Definition grows {A} (n : nat) (m : CLI world A) : Prop :=
  forall cs : cli_state world, exists t d,
    trace (proc (snd (m cs))) = trace (proc cs) ++ t
    /\ stderr (proc (snd (m cs))) = stderr (proc cs) ++ d
    /\ (requests t <= n)%nat /\ Forall R t /\ Forall D d.

Lemma grows_ret {A} (a : A) : grows 0 (cli_ret a).
Proof.
  intros cs. exists [], []. simpl. rewrite !app_nil_r. repeat split; auto.
Qed.

Lemma grows_bind {A B} n1 n2 (m : CLI world A) (k : A -> CLI world B) :
  grows n1 m -> (forall a, grows n2 (k a)) -> grows (n1 + n2) (cli_bind m k).
Proof.
  intros Hm Hk cs. unfold cli_bind.
  destruct (Hm cs) as (t1 & d1 & Ht1 & Hd1 & Hn1 & HR1 & HD1).
  destruct (m cs) as [a cs1]. simpl in *.
  destruct (Hk a cs1) as (t2 & d2 & Ht2 & Hd2 & Hn2 & HR2 & HD2).
  exists (t1 ++ t2), (d1 ++ d2).
  rewrite Ht2, Ht1, Hd2, Hd1, <- !app_assoc, requests_app.
  repeat split; try reflexivity; try lia; apply Forall_app; split; assumption.
Qed.

Lemma grows_le {A} n n' (m : CLI world A) :
  (n <= n')%nat -> grows n m -> grows n' m.
Proof.
  intros Hle Hm cs. destruct (Hm cs) as (t & d & Ht & Hd & Hn & HR & HD).
  exists t, d. repeat split; try assumption. lia.
Qed.

Lemma grows_driver {A} n (m : M A) :
  mgrows n R D m -> grows n (driver m).
Proof.
  intros Hm cs. unfold driver.
  destruct (Hm (proc cs)) as (t & d & H).
  destruct (m (proc cs)) as [a s']. exists t, d. exact H.
Qed.

Lemma grows_cli_fprintf_stderr d : grows 0 (cli_fprintf_stderr d).
Proof.
  intros cs. exists [], []. simpl. rewrite !app_nil_r. repeat split; auto.
Qed.

Lemma grows_print_lines ls : grows 0 (print_lines ls).
Proof.
  induction ls as [|l ls IH]; simpl.
  - apply grows_ret.
  - apply (grows_bind 0 0).
    + apply grows_driver, mgrows_printf.
    + intros _. exact IH.
Qed.

(** What [main]'s lookup found is what the accessor it then calls finds. *)
Lemma lookup_for_read_bit nm reg :
  find_register g_registers nm ANY_KIND = Some reg ->
  (type reg =? REG_COIL_STATUS) || (type reg =? REG_INPUT_STATUS) = true ->
  find_register g_registers nm (Z.lor REG_COIL_STATUS REG_INPUT_STATUS) = Some reg.
Proof.
  intros Hf Hty.
  apply (find_register_narrow g_registers nm _ ANY_KIND reg eq_refl Hf).
  apply orb_true_iff in Hty. destruct Hty as [E|E];
    apply Z.eqb_eq in E; rewrite E; discriminate.
Qed.

Lemma lookup_for_read_int nm reg :
  single_kind reg ->
  find_register g_registers nm ANY_KIND = Some reg ->
  (type reg =? REG_COIL_STATUS) || (type reg =? REG_INPUT_STATUS) = false ->
  find_register g_registers nm (Z.lor REG_INPUT REG_HOLDING) = Some reg.
Proof.
  intros Hk Hf Hty.
  apply (find_register_narrow g_registers nm _ ANY_KIND reg eq_refl Hf).
  apply orb_false_iff in Hty. destruct Hty as [E1 E2].
  apply Z.eqb_neq in E1, E2.
  destruct Hk as [E | [E | [E | E]]]; try contradiction;
    rewrite E; discriminate.
Qed.

Lemma lookup_for_write_bit nm reg :
  find_register g_registers nm WRITABLE_KIND = Some reg ->
  (type reg =? REG_COIL_STATUS) = true ->
  find_register g_registers nm REG_COIL_STATUS = Some reg.
Proof.
  intros Hf Hty.
  apply (find_register_narrow g_registers nm _ WRITABLE_KIND reg eq_refl Hf).
  apply Z.eqb_eq in Hty. rewrite Hty. discriminate.
Qed.

Lemma lookup_for_write_int nm reg :
  single_kind reg ->
  find_register g_registers nm WRITABLE_KIND = Some reg ->
  (type reg =? REG_COIL_STATUS) = false ->
  find_register g_registers nm REG_HOLDING = Some reg.
Proof.
  intros Hk Hf Hty.
  apply (find_register_narrow g_registers nm _ WRITABLE_KIND reg eq_refl Hf).
  apply Z.eqb_neq in Hty.
  assert (Hm : Z.land (type reg) WRITABLE_KIND <> 0).
  { apply find_register_first_match in Hf.
    destruct Hf as (k & _ & _ & Hm & _). exact Hm. }
  destruct Hk as [E | [E | [E | E]]]; try contradiction;
    rewrite E in *; try discriminate; destruct Hm; reflexivity.
Qed.

Lemma found_is_single_kind nm mask reg :
  Forall single_kind g_registers ->
  find_register g_registers nm mask = Some reg -> single_kind reg.
Proof.
  intros Hall Hf. rewrite find_register_find in Hf.
  apply find_some in Hf. destruct Hf as [Hin _].
  rewrite Forall_forall in Hall. exact (Hall reg Hin).
Qed.

Lemma grows_read_one nm :
  (forall ev, is_read_request ev = true -> R ev) ->
  grows 1 (read_one g_registers percent_2f_quotient indeterminate_bool
                    indeterminate_int nm).
Proof.
  intros HR. unfold read_one.
  destruct (find_register g_registers nm ANY_KIND) as [reg|] eqn:Hf.
  - apply (grows_bind 1 0); [|intros _; apply grows_ret].
    destruct ((type reg =? REG_COIL_STATUS) || (type reg =? REG_INPUT_STATUS))
      eqn:Hty.
    + apply (grows_bind 1 0).
      * apply grows_driver, mgrows_read_bit; try assumption.
        left. rewrite (lookup_for_read_bit nm reg Hf Hty). discriminate.
      * intros [ok v]. simpl. destruct ok.
        -- apply grows_driver, mgrows_printf.
        -- apply grows_ret.
    + apply (grows_bind 1 0).
      * apply grows_driver, mgrows_read_int; try assumption.
        destruct D_lookup as [Hall | HD]; [left | right; exact HD].
        rewrite (lookup_for_read_int nm reg
                   (found_is_single_kind _ _ _ Hall Hf) Hf Hty).
        discriminate.
      * intros [ok v]. simpl. destruct ok; [|apply grows_ret].
        destruct (scale reg >? 1); apply grows_driver, mgrows_printf.
  - apply (grows_bind 0 1); [apply grows_cli_fprintf_stderr|].
    intros _. apply (grows_le 0); [lia | apply grows_ret].
Qed.

Lemma grows_read_loop names :
  (forall ev, is_read_request ev = true -> R ev) ->
  grows (length names)
        (read_loop g_registers percent_2f_quotient indeterminate_bool
                   indeterminate_int names).
Proof.
  intros HR. induction names as [|nm rest IH]; simpl.
  - apply grows_ret.
  - apply (grows_bind 1 (length rest)).
    + apply grows_read_one. exact HR.
    + intros ok. destruct ok; [exact IH|].
      apply (grows_le 0); [lia | apply grows_ret].
Qed.

Lemma grows_write_branch argv :
  (forall ev, is_write_request ev = true -> R ev) ->
  grows 1 (write_branch g_registers atoi argv).
Proof.
  intros HR. unfold write_branch.
  destruct (length argv <? 6)%nat.
  { apply (grows_bind 0 1); [apply grows_cli_fprintf_stderr|].
    intros _. apply (grows_le 0); [lia | apply grows_ret]. }
  destruct (find_register g_registers (nth 4 argv "") WRITABLE_KIND)
    as [reg|] eqn:Hf.
  - apply (grows_bind 1 0); [|intros _; apply grows_ret].
    destruct (type reg =? REG_COIL_STATUS) eqn:Hty.
    + apply (grows_bind 1 0).
      * apply grows_driver, mgrows_write_bit; try assumption.
        left. rewrite (lookup_for_write_bit _ reg Hf Hty). discriminate.
      * intros ok. destruct ok; [|apply grows_ret].
        apply grows_driver, mgrows_printf.
    + apply (grows_bind 1 0).
      * apply grows_driver, mgrows_write_int; try assumption.
        destruct D_lookup as [Hall | HD]; [left | right; exact HD].
        rewrite (lookup_for_write_int _ reg
                   (found_is_single_kind _ _ _ Hall Hf) Hf Hty).
        discriminate.
      * intros ok. destruct ok; [|apply grows_ret].
        apply grows_driver, mgrows_printf.
  - apply (grows_bind 0 1); [apply grows_cli_fprintf_stderr|].
    intros _. apply (grows_le 0); [lia | apply grows_ret].
Qed.

(** [main] as a whole: [n] bounds the requests of the branch taken. *)
Lemma grows_main argv n :
  (nth 3 argv "" = "read" ->
   (forall ev, is_read_request ev = true -> R ev)
   /\ (length (skipn 4 argv) <= n)%nat) ->
  (nth 3 argv "" = "write" ->
   (forall ev, is_write_request ev = true -> R ev) /\ (1 <= n)%nat) ->
  grows n (main g_registers atoi percent_2f_quotient indeterminate_bool
                indeterminate_int argv).
Proof.
  intros Hread Hwrite. unfold main.
  destruct (length argv <? 5)%nat.
  { apply (grows_le 0); [lia|].
    apply (grows_bind 0 0); [apply grows_print_lines|].
    intros _. apply grows_ret. }
  assert (Hafter : forall mdl,
    grows n
      (cli_bind (driver (thermia_modbus_open (nth 1 argv "") 502 mdl))
         (fun opened_ok =>
            if negb opened_ok then cli_ret EXIT_FAILURE
            else
              cli_bind
                (if strcmp (nth 3 argv "") "read" =? 0
                 then read_loop g_registers percent_2f_quotient
                                indeterminate_bool indeterminate_int
                                (skipn 4 argv)
                 else if strcmp (nth 3 argv "") "write" =? 0
                      then write_branch g_registers atoi argv
                      else cli_bind (cli_fprintf_stderr
                                       (OperationUnknown (nth 3 argv "")))
                                    (fun _ => cli_ret false))
                (fun completed =>
                   cli_bind (driver thermia_modbus_close)
                     (fun _ => cli_ret (if completed then EXIT_SUCCESS
                                        else EXIT_FAILURE)))))).
  { intros mdl. apply (grows_le (0 + (n + 0))); [lia|].
    apply (grows_bind 0 (n + 0));
      [apply grows_driver, mgrows_open; assumption|].
    intros ok. destruct ok; simpl.
    - apply (grows_bind n 0).
      + destruct (strcmp (nth 3 argv "") "read" =? 0) eqn:Er.
        * apply strcmp_zero in Er. destruct (Hread Er) as [HR Hn].
          apply (grows_le (length (skipn 4 argv))); [exact Hn|].
          apply grows_read_loop. exact HR.
        * destruct (strcmp (nth 3 argv "") "write" =? 0) eqn:Ew.
          -- apply strcmp_zero in Ew. destruct (Hwrite Ew) as [HR Hn].
             apply (grows_le 1); [exact Hn|].
             apply grows_write_branch. exact HR.
          -- apply (grows_le (0 + 0)); [lia|].
             apply (grows_bind 0 0); [apply grows_cli_fprintf_stderr|].
             intros _. apply grows_ret.
      + intros completed. apply (grows_bind 0 0).
        * apply grows_driver, mgrows_close; assumption.
        * intros _. apply grows_ret.
    - apply (grows_le 0); [lia | apply grows_ret]. }
  destruct (strcmp (nth 2 argv "") "mega" =? 0); [apply Hafter|].
  destruct (strcmp (nth 2 argv "") "inverter" =? 0); [apply Hafter|].
  apply (grows_le (0 + 0)); [lia|].
  apply (grows_bind 0 0); [apply grows_cli_fprintf_stderr|].
  intros _. apply grows_ret.
Qed.

End CommandLineGrowth.

(** ** Properties of the command line *)

Lemma register_io_split ev :
  is_register_io ev = false ->
  is_read_request ev = false /\ is_write_request ev = false.
Proof. destruct ev; simpl; intros H; try discriminate; split; reflexivity. Qed.

Lemma read_is_not_write ev : is_read_request ev = true -> is_write_request ev = false.
Proof. destruct ev; simpl; intros H; try discriminate; reflexivity. Qed.

Lemma write_is_not_read ev : is_write_request ev = true -> is_read_request ev = false.
Proof. destruct ev; simpl; intros H; try discriminate; reflexivity. Qed.

Section CommandLineFacts.

Context {world : Type} {lib : Modbus world}.
Variable g_registers : list register_def_t.
Variable atoi : string -> Z.
Variable percent_2f_quotient : Z -> Z -> string.
Variable indeterminate_bool : bool.
Variable indeterminate_int : Z.

Abbreviation run_main :=
  (main g_registers atoi percent_2f_quotient indeterminate_bool indeterminate_int).

(** X11: with operation [read], [main] never calls [modbus_write_bit] or
    [modbus_write_register], and it makes at most one register request per
    register name on the command line. *)
Theorem main_read_never_writes :
  forall (argv : list string) (cs : cli_state world),
    nth 3 argv "" = "read" ->
    exists t,
      trace (proc (snd (run_main argv cs))) = trace (proc cs) ++ t
      /\ Forall (fun ev => is_write_request ev = false) t
      /\ (requests t <= length (skipn 4 argv))%nat.
Proof.
  intros argv cs Hop.
  destruct (grows_main g_registers atoi percent_2f_quotient indeterminate_bool
              indeterminate_int
              (fun ev => is_write_request ev = false) (fun _ => True)
              (fun ev H => proj2 (register_io_split ev H))
              (fun _ _ => I) (or_intror (fun _ => I))
              argv (length (skipn 4 argv))
              (fun _ => conj read_is_not_write (le_n _))
              (fun Hw => ltac:(rewrite Hop in Hw; discriminate)) cs)
    as (t & d & Ht & _ & Hn & HR & _).
  exists t. repeat split; assumption.
Qed.

(** X12: with operation [write], [main] makes at most one register
    request, and never a read. *)
Theorem main_write_makes_one_request :
  forall (argv : list string) (cs : cli_state world),
    nth 3 argv "" = "write" ->
    exists t,
      trace (proc (snd (run_main argv cs))) = trace (proc cs) ++ t
      /\ Forall (fun ev => is_read_request ev = false) t
      /\ (requests t <= 1)%nat.
Proof.
  intros argv cs Hop.
  destruct (grows_main g_registers atoi percent_2f_quotient indeterminate_bool
              indeterminate_int
              (fun ev => is_read_request ev = false) (fun _ => True)
              (fun ev H => proj1 (register_io_split ev H))
              (fun _ _ => I) (or_intror (fun _ => I))
              argv 1%nat
              (fun Hr => ltac:(rewrite Hop in Hr; discriminate))
              (fun _ => conj write_is_not_read (le_n _)) cs)
    as (t & d & Ht & _ & Hn & HR & _).
  exists t. repeat split; assumption.
Qed.

(** X13: when every table entry has one of the four kinds the generator
    emits, the accessor [main] calls after its own lookup finds the
    register again: during [main] the driver never prints its not-found
    diagnostic, whatever the command line. *)
Theorem main_lookup_agrees_with_accessor :
  forall (argv : list string) (cs : cli_state world),
    Forall single_kind g_registers ->
    exists d,
      stderr (proc (snd (run_main argv cs))) = stderr (proc cs) ++ d
      /\ Forall (fun x => forall n, x <> RegisterNotFound n) d.
Proof.
  intros argv cs Hkinds.
  destruct (grows_main g_registers atoi percent_2f_quotient indeterminate_bool
              indeterminate_int
              (fun _ => True) (fun x => forall n, x <> RegisterNotFound n)
              (fun _ _ => I) (fun x H => H) (or_introl Hkinds)
              argv (length (skipn 4 argv) + 1)%nat
              (fun _ => conj (fun _ _ => I) (Nat.le_add_r _ _))
              (fun _ => conj (fun _ _ => I) (Nat.le_add_l _ _)) cs)
    as (t & d & _ & Hd & _ & _ & HD).
  exists d. split; assumption.
Qed.

Lemma print_lines_prints ls : forall cs : cli_state world,
  print_lines ls cs
  = (tt, mk_cli (mk_state (g_ctx (proc cs)) (g_model (proc cs)) (bus (proc cs))
                          (trace (proc cs)) (stderr (proc cs))
                          (stdout (proc cs) ++ ls))
                (cli_stderr cs)).
Proof.
  induction ls as [|l ls IH]; intros [[c m w t e o] ce]; simpl.
  - rewrite app_nil_r. reflexivity.
  - unfold cli_bind, driver, printf. simpl. rewrite IH. simpl.
    rewrite <- app_assoc. reflexivity.
Qed.

(** X14: a command line with fewer than five words, or whose model word is
    neither [mega] nor [inverter], makes [main] return 1 without touching
    the driver: no library call, no session, nothing on the driver's
    stderr.  The first prints the usage text on stdout, the second the
    model-unknown line on stderr. *)
Theorem main_rejects_bad_command_line :
  forall (argv : list string) (cs : cli_state world),
    (length argv < 5)%nat
    \/ (nth 2 argv "" <> "mega" /\ nth 2 argv "" <> "inverter") ->
    let '(code, cs') := run_main argv cs in
    code = 1
    /\ trace (proc cs') = trace (proc cs)
    /\ bus (proc cs') = bus (proc cs)
    /\ g_ctx (proc cs') = g_ctx (proc cs)
    /\ g_model (proc cs') = g_model (proc cs)
    /\ stderr (proc cs') = stderr (proc cs)
    /\ if (length argv <? 5)%nat
       then stdout (proc cs') = stdout (proc cs) ++ usage_lines (nth 0 argv "")
            /\ cli_stderr cs' = cli_stderr cs
       else stdout (proc cs') = stdout (proc cs)
            /\ cli_stderr cs'
               = cli_stderr cs ++ [(length (stderr (proc cs)),
                                    ModelUnknown (nth 2 argv ""))].
Proof.
  intros argv cs Hbad. unfold main.
  destruct (length argv <? 5)%nat eqn:Hlen.
  - unfold print_usage, cli_bind. rewrite print_lines_prints. simpl.
    repeat split; reflexivity.
  - apply Nat.ltb_ge in Hlen.
    destruct Hbad as [Hshort | [Hm Hi]]; [lia|].
    destruct (strcmp (nth 2 argv "") "mega" =? 0) eqn:Em;
      [apply strcmp_zero in Em; contradiction|].
    destruct (strcmp (nth 2 argv "") "inverter" =? 0) eqn:Ei;
      [apply strcmp_zero in Ei; contradiction|].
    unfold_cli. simpl. repeat split; reflexivity.
Qed.

Lemma open_failure_stays_closed ip port mdl (s : state world) :
  g_ctx s = None ->
  fst (thermia_modbus_open ip port mdl s) = false ->
  g_ctx (snd (thermia_modbus_open ip port mdl s)) = None.
Proof.
  intros Hc. unfold_session. rewrite Hc. simpl.
  destruct (modbus_new_tcp ip port (bus s)) as [[c|] w0]; simpl;
    [|reflexivity].
  destruct (modbus_set_slave c 1 w0) as [rs w1]; simpl.
  destruct (modbus_connect c w1) as [rc w2]; simpl.
  destruct (rc =? -1); simpl; [reflexivity | discriminate].
Qed.

Lemma close_at_exit {A} (m : CLI world A) (f : A -> Z) cs :
  g_ctx (proc (snd (cli_bind m
                      (fun completed =>
                         cli_bind (driver thermia_modbus_close)
                                  (fun _ => cli_ret (f completed))) cs))) = None.
Proof.
  unfold cli_bind, driver, cli_ret.
  destruct (m cs) as [a cs1].
  pose proof (close_closes (proc cs1)) as Hcl.
  destruct (thermia_modbus_close (proc cs1)) as [u s2]. exact Hcl.
Qed.

(** X15: started with no session open, [main] ends with no session open on
    every path: whenever its [thermia_modbus_open] succeeded it calls
    [thermia_modbus_close] before returning, also on the failure exits. *)
Theorem main_leaves_session_closed :
  forall (argv : list string) (cs : cli_state world),
    g_ctx (proc cs) = None ->
    g_ctx (proc (snd (run_main argv cs))) = None.
Proof.
  intros argv cs Hc. unfold main.
  destruct (length argv <? 5)%nat.
  { unfold print_usage, cli_bind. rewrite print_lines_prints. exact Hc. }
  assert (Hafter : forall mdl k,
    g_ctx (proc (snd (cli_bind
                        (driver (thermia_modbus_open (nth 1 argv "") 502 mdl))
      (fun opened_ok : bool =>
         if negb opened_ok then cli_ret EXIT_FAILURE
         else
           cli_bind k
             (fun completed : bool =>
                cli_bind (driver thermia_modbus_close)
                  (fun _ => cli_ret (if completed then EXIT_SUCCESS
                                     else EXIT_FAILURE)))) cs))) = None).
  { intros mdl k. unfold cli_bind at 1. unfold driver at 1.
    pose proof (open_failure_stays_closed (nth 1 argv "") 502 mdl (proc cs) Hc)
      as Hfail.
    destruct (thermia_modbus_open (nth 1 argv "") 502 mdl (proc cs))
      as [ok s1]. simpl in Hfail.
    destruct ok; simpl.
    - apply (close_at_exit k (fun completed : bool =>
                                if completed then EXIT_SUCCESS else EXIT_FAILURE)).
    - apply Hfail. reflexivity. }
  destruct (strcmp (nth 2 argv "") "mega" =? 0); [apply Hafter|].
  destruct (strcmp (nth 2 argv "") "inverter" =? 0); [apply Hafter|].
  unfold_cli. exact Hc.
Qed.

Lemma then_true {A} (m : CLI world A) cs :
  fst (cli_bind m (fun _ => cli_ret true) cs) = true.
Proof. unfold cli_bind, cli_ret. destruct (m cs). reflexivity. Qed.

Lemma then_false {A} (m : CLI world A) cs :
  fst (cli_bind m (fun _ => cli_ret false) cs) = false.
Proof. unfold cli_bind, cli_ret. destruct (m cs). reflexivity. Qed.

Lemma read_one_completes nm cs :
  fst (read_one g_registers percent_2f_quotient indeterminate_bool
                indeterminate_int nm cs) = true
  <-> find_register g_registers nm ANY_KIND <> None.
Proof.
  unfold read_one.
  destruct (find_register g_registers nm ANY_KIND) as [reg|].
  - rewrite then_true. split; [discriminate | reflexivity].
  - rewrite then_false. split; [discriminate | intros H; destruct H; reflexivity].
Qed.

Lemma read_loop_completes names : forall cs,
  fst (read_loop g_registers percent_2f_quotient indeterminate_bool
                 indeterminate_int names cs) = true
  <-> Forall (fun nm => find_register g_registers nm ANY_KIND <> None) names.
Proof.
  induction names as [|nm rest IH]; intros cs; simpl.
  - split; [constructor | reflexivity].
  - unfold cli_bind at 1.
    pose proof (read_one_completes nm cs) as Hone.
    destruct (read_one g_registers percent_2f_quotient indeterminate_bool
                       indeterminate_int nm cs) as [ok cs1].
    simpl in Hone. destruct ok.
    + rewrite IH. split.
      * intros Hrest. constructor; [apply Hone; reflexivity | exact Hrest].
      * intros Hall. inversion Hall; assumption.
    + simpl. split; [discriminate|].
      intros Hall. inversion Hall as [|x l Hx Hl]; subst.
      apply Hone in Hx. discriminate.
Qed.

Lemma write_branch_completes argv cs :
  fst (write_branch g_registers atoi argv cs) = true
  <-> (6 <= length argv)%nat
      /\ find_register g_registers (nth 4 argv "") WRITABLE_KIND <> None.
Proof.
  unfold write_branch.
  destruct (length argv <? 6)%nat eqn:Hlen.
  - apply Nat.ltb_lt in Hlen. rewrite then_false.
    split; [discriminate | intros [H _]; lia].
  - apply Nat.ltb_ge in Hlen.
    destruct (find_register g_registers (nth 4 argv "") WRITABLE_KIND) as [reg|].
    + rewrite then_true. split; [|reflexivity].
      intros _. split; [exact Hlen | discriminate].
    + rewrite then_false. split; [discriminate|].
      intros [_ H]. destruct H. reflexivity.
Qed.

Lemma status_after_close (k : CLI world bool) cs :
  fst (cli_bind k
         (fun completed =>
            cli_bind (driver thermia_modbus_close)
              (fun _ => cli_ret (if completed then EXIT_SUCCESS
                                 else EXIT_FAILURE))) cs) = EXIT_SUCCESS
  <-> fst (k cs) = true.
Proof.
  unfold cli_bind, driver, cli_ret.
  destruct (k cs) as [completed cs1].
  destruct (thermia_modbus_close (proc cs1)) as [u s2]. simpl.
  destruct completed; split; intros H; try reflexivity; discriminate H.
Qed.

(** What has to hold of the command line for the operation to run to its
    end: every name of a read is in the table under some kind; a write has
    its value word and its name is in the table as a coil or a holding
    register. *)
Definition operation_completes (argv : list string) : Prop :=
  (nth 3 argv "" = "read"
   /\ Forall (fun nm => find_register g_registers nm ANY_KIND <> None)
             (skipn 4 argv))
  \/ (nth 3 argv "" = "write"
      /\ (6 <= length argv)%nat
      /\ find_register g_registers (nth 4 argv "") WRITABLE_KIND <> None).

(** X16: [main] returns [EXIT_SUCCESS] exactly when the command line has at
    least five words, the model word is [mega] or [inverter], the session
    opened (on port 502), and the operation's names are in the table.  The
    outcome of the reads and writes themselves does not enter: a register
    the model does not support, or a request that fails on the wire, still
    ends in [EXIT_SUCCESS]. *)
Theorem main_exit_status :
  forall (argv : list string) (cs : cli_state world),
    fst (run_main argv cs) = EXIT_SUCCESS
    <-> (5 <= length argv)%nat
        /\ (exists mdl,
              ((nth 2 argv "" = "mega" /\ mdl = MODEL_MEGA)
               \/ (nth 2 argv "" = "inverter" /\ mdl = MODEL_INVERTER))
              /\ fst (thermia_modbus_open (nth 1 argv "") 502 mdl (proc cs)) = true)
        /\ operation_completes argv.
Proof.
  intros argv cs. unfold main.
  destruct (length argv <? 5)%nat eqn:Hlen.
  { apply Nat.ltb_lt in Hlen. unfold print_usage, cli_bind.
    rewrite print_lines_prints. simpl.
    split; [discriminate | intros [H _]; lia]. }
  apply Nat.ltb_ge in Hlen.
  assert (Hafter : forall mdl,
    fst (cli_bind (driver (thermia_modbus_open (nth 1 argv "") 502 mdl))
      (fun opened_ok : bool =>
         if negb opened_ok then cli_ret EXIT_FAILURE
         else
           cli_bind
             (if strcmp (nth 3 argv "") "read" =? 0
              then read_loop g_registers percent_2f_quotient
                             indeterminate_bool indeterminate_int (skipn 4 argv)
              else if strcmp (nth 3 argv "") "write" =? 0
                   then write_branch g_registers atoi argv
                   else cli_bind (cli_fprintf_stderr
                                    (OperationUnknown (nth 3 argv "")))
                                 (fun _ => cli_ret false))
             (fun completed : bool =>
                cli_bind (driver thermia_modbus_close)
                  (fun _ => cli_ret (if completed then EXIT_SUCCESS
                                     else EXIT_FAILURE)))) cs) = EXIT_SUCCESS
    <-> fst (thermia_modbus_open (nth 1 argv "") 502 mdl (proc cs)) = true
        /\ operation_completes argv).
  { intros mdl. unfold cli_bind at 1. unfold driver at 1.
    destruct (thermia_modbus_open (nth 1 argv "") 502 mdl (proc cs))
      as [ok s1]. simpl.
    destruct ok; simpl.
    - rewrite status_after_close. unfold operation_completes.
      destruct (strcmp (nth 3 argv "") "read" =? 0) eqn:Er.
      + apply strcmp_zero in Er. rewrite read_loop_completes. split.
        * intros Hall. split; [reflexivity|]. left. split; assumption.
        * intros [_ [[_ Hall] | [Hw _]]]; [exact Hall|].
          rewrite Er in Hw. discriminate.
      + assert (Hnr : nth 3 argv "" <> "read").
        { intros E. apply strcmp_zero in E. rewrite E in Er. discriminate. }
        destruct (strcmp (nth 3 argv "") "write" =? 0) eqn:Ew.
        * apply strcmp_zero in Ew. rewrite write_branch_completes. split.
          -- intros H. split; [reflexivity|]. right. split; assumption.
          -- intros [_ [[Hr _] | [_ H]]]; [contradiction | exact H].
        * assert (Hnw : nth 3 argv "" <> "write").
          { intros E. apply strcmp_zero in E. rewrite E in Ew. discriminate. }
          rewrite then_false. split; [discriminate|].
          intros [_ [[Hr _] | [Hw _]]]; contradiction.
    - split; [discriminate | intros [H _]; discriminate]. }
  destruct (strcmp (nth 2 argv "") "mega" =? 0) eqn:Em.
  { apply strcmp_zero in Em. rewrite Hafter. split.
    - intros [Ho Hc]. split; [exact Hlen|]. split; [|exact Hc].
      exists MODEL_MEGA. split; [left; split; [exact Em | reflexivity] | exact Ho].
    - intros (_ & (mdl & [[_ ->] | [Hi _]] & Ho) & Hc).
      + split; assumption.
      + rewrite Em in Hi. discriminate. }
  destruct (strcmp (nth 2 argv "") "inverter" =? 0) eqn:Ei.
  { apply strcmp_zero in Ei. rewrite Hafter. split.
    - intros [Ho Hc]. split; [exact Hlen|]. split; [|exact Hc].
      exists MODEL_INVERTER.
      split; [right; split; [exact Ei | reflexivity] | exact Ho].
    - intros (_ & (mdl & [[Hm _] | [_ ->]] & Ho) & Hc).
      + rewrite Ei in Hm. discriminate.
      + split; assumption. }
  unfold_cli. simpl. split; [discriminate|].
  intros (_ & (mdl & [[Hm _] | [Hi _]] & _) & _).
  - apply strcmp_zero in Hm. rewrite Hm in Em. discriminate.
  - apply strcmp_zero in Hi. rewrite Hi in Ei. discriminate.
Qed.

End CommandLineFacts.

(** ** The command line on the simulated controller *)

(** Stand-ins for the two libc conversions, enough to run [main] on plain
    decimal words: an optional sign followed by digits, and the quotient
    shown as its two operands. *)
Fixpoint digits_value (s : string) (acc : Z) : Z :=
  match s with
  | EmptyString => acc
  | String ch rest =>
      let n := Z.of_nat (nat_of_ascii ch) in
      if (48 <=? n) && (n <=? 57) then digits_value rest (10 * acc + (n - 48))
      else acc
  end.

Definition decimal_atoi (s : string) : Z :=
  match s with
  | String "-" rest => - digits_value rest 0
  | String "+" rest => digits_value rest 0
  | _ => digits_value s 0
  end.

Definition quotient_as_fraction (value scale : Z) : string :=
  (percent_d value ++ "/" ++ percent_d scale)%string.

Definition sample_main (argv : list string) (w : sim) : Z * cli_state sim :=
  main sample_registers decimal_atoi quotient_as_fraction false 0 argv
       (mk_cli (initial w) []).

Definition read_two : list string :=
  ["thermia"; "192.168.0.106"; "mega"; "read";
   "valueHeatpumpBrineInTemperature"; "enableHeatpumpResetAllAlarms"].

Definition write_one : list string :=
  ["thermia"; "192.168.0.106"; "mega"; "write";
   "valueHeatpumpBrineInTemperature"; "220"].

(** A write whose request fails on the wire still exits with 0. *)
Example failed_write_exits_with_success :
  fst (sample_main write_one sample_broken_device) = EXIT_SUCCESS
  /\ stderr (proc (snd (sample_main write_one sample_broken_device)))
     = [WriteIntFailed "Connection timed out"].
Proof. split; reflexivity. Qed.

(** A read of a name missing from the table exits with 1, after the reads
    before it were made. *)
Example unknown_name_exits_with_failure :
  let r := sample_main ["thermia"; "192.168.0.106"; "mega"; "read";
                        "valueHeatpumpBrineInTemperature"; "noSuchRegister"]
                       sample_device in
  fst r = EXIT_FAILURE
  /\ cli_stderr (snd r) = [(0%nat, CliRegisterNotFound "noSuchRegister")]
  /\ trace (proc (snd r))
     = [EvNewTcp "192.168.0.106" 502; EvSetSlave 1%N 1; EvConnect 1%N;
        EvReadRegisters 1%N 100 1; EvClose 1%N; EvFree 1%N].
Proof. repeat split; reflexivity. Qed.

Lemma main_read_never_writes_witness :
  exists t,
    trace (proc (snd (sample_main read_two sample_device)))
    = trace (proc (mk_cli (initial sample_device) [])) ++ t
    /\ Forall (fun ev => is_write_request ev = false) t
    /\ (requests t <= length (skipn 4 read_two))%nat.
Proof.
  apply (main_read_never_writes sample_registers decimal_atoi
           quotient_as_fraction false 0 read_two
           (mk_cli (initial sample_device) [])).
  reflexivity.
Defined.

Lemma main_write_makes_one_request_witness :
  exists t,
    trace (proc (snd (sample_main write_one sample_device)))
    = trace (proc (mk_cli (initial sample_device) [])) ++ t
    /\ Forall (fun ev => is_read_request ev = false) t
    /\ (requests t <= 1)%nat.
Proof.
  apply (main_write_makes_one_request sample_registers decimal_atoi
           quotient_as_fraction false 0 write_one
           (mk_cli (initial sample_device) [])).
  reflexivity.
Defined.

Lemma sample_registers_single_kind : Forall single_kind sample_registers.
Proof.
  unfold sample_registers, single_kind. repeat constructor; simpl; tauto.
Qed.

Lemma main_lookup_agrees_with_accessor_witness :
  exists d,
    stderr (proc (snd (sample_main read_two sample_device)))
    = stderr (proc (mk_cli (initial sample_device) [])) ++ d
    /\ Forall (fun x => forall n, x <> RegisterNotFound n) d.
Proof.
  apply (main_lookup_agrees_with_accessor sample_registers decimal_atoi
           quotient_as_fraction false 0 read_two
           (mk_cli (initial sample_device) [])).
  exact sample_registers_single_kind.
Defined.

Definition bad_model : list string :=
  ["thermia"; "192.168.0.106"; "vega"; "read"; "x"].

Lemma main_rejects_bad_command_line_witness :
  let '(code, cs') := sample_main bad_model sample_device in
  code = 1 /\ trace (proc cs') = [] /\ g_ctx (proc cs') = None.
Proof.
  assert (Hbad : (length bad_model < 5)%nat
            \/ (nth 2 bad_model "" <> "mega" /\ nth 2 bad_model "" <> "inverter")).
  { right. split; simpl; intros E; discriminate E. }
  pose proof (main_rejects_bad_command_line sample_registers decimal_atoi
                quotient_as_fraction false 0 bad_model
                (mk_cli (initial sample_device) []) Hbad) as H.
  unfold sample_main.
  destruct (main sample_registers decimal_atoi quotient_as_fraction false 0
              bad_model (mk_cli (initial sample_device) [])) as [code cs'].
  destruct H as (Hcode & Htrace & _ & Hctx & _). repeat split; assumption.
Defined.

Lemma main_leaves_session_closed_witness :
  g_ctx (proc (snd (sample_main read_two sample_device))) = None.
Proof.
  apply (main_leaves_session_closed sample_registers decimal_atoi
           quotient_as_fraction false 0 read_two
           (mk_cli (initial sample_device) [])).
  reflexivity.
Defined.

(** * The catalog generator ([csv2header.js]) *)

Module Csv2Header.

(** A JavaScript string: its UTF-16 code units. *)
Definition js_string := list N.

(** The code units of the double quote, the comma and the backslash. *)
Definition QUOTE : N := 34.
Definition COMMA : N := 44.
Definition BACKSLASH : N := 92.

Definition of_string (s : string) : js_string :=
  map N_of_ascii (list_ascii_of_string s).

(** [Array.prototype.join]. *)
Fixpoint join (sep : js_string) (parts : list js_string) : js_string :=
  match parts with
  | [] => []
  | [x] => x
  | x :: rest => x ++ sep ++ join sep rest
  end.

(** The [for] loop of [parseCSVLine] over the characters still to read,
    with the locals [fields], [current] and [inQuotes]; at the end of the
    line, [fields.push(current); return fields]. *)
Fixpoint parse_loop (line : js_string) (fields : list js_string)
         (current : js_string) (inQuotes : bool) : list js_string :=
  match line with
  | [] => fields ++ [current]
  | char :: rest =>
      if (char =? QUOTE)%N then parse_loop rest fields current (negb inQuotes)
      else if (char =? COMMA)%N && negb inQuotes
           then parse_loop rest (fields ++ [current]) [] inQuotes
           else parse_loop rest fields (current ++ [char]) inQuotes
  end.

Definition parseCSVLine (line : js_string) : list js_string :=
  parse_loop line [] [] false.

(** The two global replacements of [escapeString], in its order: every
    backslash becomes two backslashes, then every double quote becomes a
    backslash followed by the double quote. *)
Definition double_backslashes (str : js_string) : js_string :=
  flat_map (fun c => if (c =? BACKSLASH)%N then [BACKSLASH; BACKSLASH] else [c]) str.
Definition backslash_quotes (str : js_string) : js_string :=
  flat_map (fun c => if (c =? QUOTE)%N then [BACKSLASH; QUOTE] else [c]) str.

Definition escapeString (str : js_string) : js_string :=
  backslash_quotes (double_backslashes str).

(** The replacement applied to [description]: it deletes a double quote
    at the very start of the string and a double quote at the very end of
    what is left. *)
Fixpoint drop_final_quote (str : js_string) : js_string :=
  match str with
  | [] => []
  | [c] => if (c =? QUOTE)%N then [] else [c]
  | c :: rest => c :: drop_final_quote rest
  end.

Definition strip_surrounding_quotes (str : js_string) : js_string :=
  match str with
  | c :: rest => if (c =? QUOTE)%N then drop_final_quote rest
                 else drop_final_quote str
  | [] => []
  end.

(** Lines 68 to 76 of [convertCsvToHeader], for a row that has its ten
    fields: [description] is the tenth field and the ones after it joined
    again with commas, [cleanDesc] what is written into the table. *)
Definition description (fields : list js_string) : js_string :=
  join [COMMA] (skipn 9 fields).

Definition cleanDesc (fields : list js_string) : js_string :=
  escapeString (strip_surrounding_quotes (description fields)).

(** The line without its quote characters. *)
Definition without_quotes (line : js_string) : js_string :=
  filter (fun c => negb (c =? QUOTE)%N) line.

(** ** Joining *)

Lemma join_snoc sep parts x :
  join sep (parts ++ [x])
  = match parts with [] => x | _ => join sep parts ++ sep ++ x end.
Proof.
  induction parts as [|a parts IH]; [reflexivity|].
  destruct parts as [|b parts]; [reflexivity|].
  change (join sep ((a :: b :: parts) ++ [x]))
    with (a ++ sep ++ join sep ((b :: parts) ++ [x])).
  rewrite IH.
  change (join sep (a :: b :: parts)) with (a ++ sep ++ join sep (b :: parts)).
  rewrite <- !app_assoc. reflexivity.
Qed.

Lemma join_snoc_app sep parts x y :
  join sep (parts ++ [x ++ y]) = join sep (parts ++ [x]) ++ y.
Proof.
  rewrite !join_snoc. destruct parts; [reflexivity|].
  rewrite <- !app_assoc. reflexivity.
Qed.

Lemma join_app sep l1 l2 :
  l1 <> [] -> l2 <> [] ->
  join sep (l1 ++ l2) = join sep l1 ++ sep ++ join sep l2.
Proof.
  intros H1 H2. induction l1 as [|a l1 IH]; [contradiction|].
  destruct l1 as [|b l1].
  - simpl. destruct l2; [contradiction | reflexivity].
  - change (join sep ((a :: b :: l1) ++ l2))
      with (a ++ sep ++ join sep ((b :: l1) ++ l2)).
    rewrite IH by discriminate.
    change (join sep (a :: b :: l1)) with (a ++ sep ++ join sep (b :: l1)).
    rewrite <- !app_assoc. reflexivity.
Qed.

(** ** The parser's loop *)

Lemma parse_loop_join line : forall fields current inQuotes,
  join [COMMA] (parse_loop line fields current inQuotes)
  = join [COMMA] (fields ++ [current]) ++ without_quotes line.
Proof.
  induction line as [|char rest IH]; intros fields current inQuotes; simpl.
  - rewrite app_nil_r. reflexivity.
  - destruct (char =? QUOTE)%N eqn:Eq; simpl.
    + apply IH.
    + destruct ((char =? COMMA)%N && negb inQuotes) eqn:Ec.
      * apply andb_true_iff in Ec. destruct Ec as [Ec _].
        apply N.eqb_eq in Ec. subst char.
        rewrite IH, join_snoc.
        destruct (fields ++ [current]) eqn:E;
          [destruct fields; discriminate|].
        rewrite <- E, <- !app_assoc. reflexivity.
      * rewrite IH, join_snoc_app, <- app_assoc. reflexivity.
Qed.

Lemma parse_loop_no_quote line : forall fields current inQuotes,
  Forall (fun f => ~ In QUOTE f) fields -> ~ In QUOTE current ->
  Forall (fun f => ~ In QUOTE f) (parse_loop line fields current inQuotes).
Proof.
  induction line as [|char rest IH]; intros fields current inQuotes Hf Hc; simpl.
  - apply Forall_app. split; [assumption | constructor; [assumption | constructor]].
  - destruct (char =? QUOTE)%N eqn:Eq.
    + apply IH; assumption.
    + apply N.eqb_neq in Eq.
      destruct ((char =? COMMA)%N && negb inQuotes).
      * apply IH; [|intros []].
        apply Forall_app. split; [assumption | constructor; [assumption | constructor]].
      * apply IH; [assumption|].
        intros Hin. apply in_app_or in Hin. destruct Hin as [Hin | [E | []]].
        -- exact (Hc Hin).
        -- apply Eq. exact E.
Qed.

Lemma parse_loop_length line : forall fields current inQuotes,
  (length fields + 1 <= length (parse_loop line fields current inQuotes)
   <= length fields + 1 + count_occ N.eq_dec line COMMA)%nat
  /\ (~ In QUOTE line -> inQuotes = false ->
      length (parse_loop line fields current inQuotes)
      = (length fields + 1 + count_occ N.eq_dec line COMMA)%nat).
Proof.
  induction line as [|char rest IH]; intros fields current inQuotes.
  - simpl. rewrite length_app. simpl. split; [lia | intros; lia].
  - cbn [parse_loop].
    destruct (char =? QUOTE)%N eqn:Eq.
    + apply N.eqb_eq in Eq. subst char.
      destruct (IH fields current (negb inQuotes)) as [Hb _].
      rewrite count_occ_cons_neq by discriminate.
      split; [exact Hb|]. intros Hnq. destruct Hnq. left. reflexivity.
    + apply N.eqb_neq in Eq.
      destruct (char =? COMMA)%N eqn:Ec.
      * apply N.eqb_eq in Ec. subst char.
        rewrite count_occ_cons_eq by reflexivity.
        destruct inQuotes; cbn [andb negb].
        -- destruct (IH fields (current ++ [COMMA]) true) as [Hb _].
           split; [lia | intros _ E; discriminate E].
        -- destruct (IH (fields ++ [current]) [] false) as [Hb He].
           rewrite length_app in Hb, He. simpl in Hb, He.
           split; [lia|]. intros Hnq _. rewrite He; [lia | | reflexivity].
           intros Hin. apply Hnq. right. exact Hin.
      * apply N.eqb_neq in Ec. cbn [andb].
        rewrite count_occ_cons_neq by exact Ec.
        destruct (IH fields (current ++ [char]) inQuotes) as [Hb He].
        split; [exact Hb|]. intros Hnq Hq. apply He; [|exact Hq].
        intros Hin. apply Hnq. right. exact Hin.
Qed.

Lemma parse_loop_clean_field f : forall rest fields current,
  ~ In QUOTE f -> ~ In COMMA f ->
  parse_loop (f ++ rest) fields current false
  = parse_loop rest fields (current ++ f) false.
Proof.
  induction f as [|c f IH]; intros rest fields current Hq Hc; simpl.
  - rewrite app_nil_r. reflexivity.
  - assert (Eq : (c =? QUOTE)%N = false)
      by (apply N.eqb_neq; intros E; apply Hq; left; exact E).
    assert (Ec : (c =? COMMA)%N = false)
      by (apply N.eqb_neq; intros E; apply Hc; left; exact E).
    rewrite Eq, Ec. simpl.
    rewrite IH; [rewrite <- app_assoc; reflexivity | |];
      intros Hin; [apply Hq | apply Hc]; right; exact Hin.
Qed.

Lemma parse_loop_comma rest fields current :
  parse_loop (COMMA :: rest) fields current false
  = parse_loop rest (fields ++ [current]) [] false.
Proof. reflexivity. Qed.

Lemma parse_loop_of_join parts : forall f fields current,
  Forall (fun x => ~ In QUOTE x /\ ~ In COMMA x) (f :: parts) ->
  parse_loop (join [COMMA] (f :: parts)) fields current false
  = fields ++ (current ++ f) :: parts.
Proof.
  induction parts as [|g parts IH]; intros f fields current Hall.
  - inversion Hall as [|x l [Hq Hc] _]; subst. simpl.
    rewrite <- (app_nil_r f) at 1.
    rewrite parse_loop_clean_field by assumption. reflexivity.
  - inversion Hall as [|x l [Hq Hc] Hrest]; subst.
    change (join [COMMA] (f :: g :: parts))
      with (f ++ [COMMA] ++ join [COMMA] (g :: parts)).
    rewrite parse_loop_clean_field by assumption.
    cbn [app]. rewrite parse_loop_comma, IH by assumption.
    rewrite <- app_assoc. reflexivity.
Qed.

(** ** Quote-free strings *)

Lemma join_no_quote parts :
  Forall (fun f => ~ In QUOTE f) parts -> ~ In QUOTE (join [COMMA] parts).
Proof.
  induction parts as [|a parts IH]; intros Hall; [intros []|].
  inversion Hall as [|x l Ha Hrest]; subst.
  destruct parts as [|b parts]; [exact Ha|].
  change (join [COMMA] (a :: b :: parts))
    with (a ++ [COMMA] ++ join [COMMA] (b :: parts)).
  intros Hin. apply in_app_or in Hin. destruct Hin as [Hin | Hin].
  - exact (Ha Hin).
  - destruct Hin as [E | Hin]; [discriminate E|].
    exact (IH Hrest Hin).
Qed.

Lemma Forall_skipn {A} (P : A -> Prop) n : forall l,
  Forall P l -> Forall P (skipn n l).
Proof.
  induction n as [|n IH]; intros l H; [exact H|].
  destruct l as [|a l]; [constructor|].
  inversion H; subst. simpl. apply IH. assumption.
Qed.

Lemma drop_final_quote_id str : ~ In QUOTE str -> drop_final_quote str = str.
Proof.
  induction str as [|c str IH]; intros Hq; [reflexivity|].
  destruct str as [|d str].
  - simpl. destruct (c =? QUOTE)%N eqn:E; [|reflexivity].
    apply N.eqb_eq in E. destruct Hq. left. exact E.
  - change (drop_final_quote (c :: d :: str))
      with (c :: drop_final_quote (d :: str)).
    rewrite IH; [reflexivity|]. intros Hin. apply Hq. right. exact Hin.
Qed.

Lemma strip_surrounding_quotes_id str :
  ~ In QUOTE str -> strip_surrounding_quotes str = str.
Proof.
  intros Hq. destruct str as [|c str]; [reflexivity|].
  unfold strip_surrounding_quotes.
  destruct (c =? QUOTE)%N eqn:E.
  - apply N.eqb_eq in E. destruct Hq. left. exact E.
  - apply drop_final_quote_id. exact Hq.
Qed.

Lemma backslash_quotes_id str : ~ In QUOTE str -> backslash_quotes str = str.
Proof.
  induction str as [|c str IH]; intros Hq; [reflexivity|].
  unfold backslash_quotes in *. simpl.
  destruct (c =? QUOTE)%N eqn:E.
  - apply N.eqb_eq in E. destruct Hq. left. exact E.
  - simpl. rewrite IH; [reflexivity|]. intros Hin. apply Hq. right. exact Hin.
Qed.

Lemma double_backslashes_no_quote str :
  ~ In QUOTE str -> ~ In QUOTE (double_backslashes str).
Proof.
  induction str as [|c str IH]; intros Hq; [intros []|].
  unfold double_backslashes in *. simpl.
  intros Hin. apply in_app_or in Hin. destruct Hin as [Hin | Hin].
  - destruct (c =? BACKSLASH)%N.
    + destruct Hin as [E | [E | []]]; discriminate E.
    + destruct Hin as [E | []]. apply Hq. left. exact E.
  - apply IH; [|exact Hin]. intros Hin'. apply Hq. right. exact Hin'.
Qed.

Lemma join_parseCSVLine line :
  join [COMMA] (parseCSVLine line) = without_quotes line.
Proof. unfold parseCSVLine. rewrite parse_loop_join. reflexivity. Qed.

Lemma without_quotes_id line : ~ In QUOTE line -> without_quotes line = line.
Proof.
  unfold without_quotes.
  induction line as [|c line IH]; intros Hq; [reflexivity|]. simpl.
  destruct (c =? QUOTE)%N eqn:E.
  - apply N.eqb_eq in E. destruct Hq. left. exact E.
  - simpl. f_equal. apply IH. intros Hin. apply Hq. right. exact Hin.
Qed.

(** ** Properties of the parser *)

(** X17: no field returned by [parseCSVLine] contains a double quote, since
    the loop drops every quote it reads.  So on the fields of a parsed
    line the quote stripping applied to the description changes nothing and
    [escapeString] only doubles backslashes: the description written into
    the table is the joined description with its backslashes doubled, and
    holds no double quote. *)
Theorem parsed_fields_have_no_quote :
  forall line : js_string,
    let fields := parseCSVLine line in
    Forall (fun f => ~ In QUOTE f) fields
    /\ strip_surrounding_quotes (description fields) = description fields
    /\ cleanDesc fields = double_backslashes (description fields)
    /\ ~ In QUOTE (cleanDesc fields).
Proof.
  intros line fields.
  assert (Hf : Forall (fun f => ~ In QUOTE f) fields).
  { apply parse_loop_no_quote; [constructor | intros []]. }
  assert (Hd : ~ In QUOTE (description fields)).
  { apply join_no_quote, Forall_skipn. exact Hf. }
  assert (Hc : cleanDesc fields = double_backslashes (description fields)).
  { unfold cleanDesc, escapeString.
    rewrite (strip_surrounding_quotes_id _ Hd).
    apply backslash_quotes_id, double_backslashes_no_quote. exact Hd. }
  repeat split; try assumption.
  - apply strip_surrounding_quotes_id. exact Hd.
  - rewrite Hc. apply double_backslashes_no_quote. exact Hd.
Qed.

(** X18: [parseCSVLine] returns at least one field, also for the empty
    line, and at most one more than the line has commas; exactly that many
    when the line has no double quote.  A line with fewer than nine commas
    therefore has fewer than ten fields, which is what makes
    [convertCsvToHeader] skip it as malformed. *)
Theorem parsed_field_count :
  forall line : js_string,
    (1 <= length (parseCSVLine line) <= 1 + count_occ N.eq_dec line COMMA)%nat
    /\ (~ In QUOTE line ->
        length (parseCSVLine line) = (1 + count_occ N.eq_dec line COMMA)%nat)
    /\ ((count_occ N.eq_dec line COMMA < 9)%nat ->
        (length (parseCSVLine line) < 10)%nat).
Proof.
  intros line. unfold parseCSVLine.
  destruct (parse_loop_length line [] [] false) as [Hb He]. simpl in Hb, He.
  repeat split; try lia.
  intros Hq. apply He; [exact Hq | reflexivity].
Qed.

(** X19: joining the fields of a parsed line with commas gives the line
    back without its double quotes, and the line itself when it has none:
    commas inside quotes stay in their field, every other comma separates
    two fields, and nothing but the quotes is lost. *)
Theorem join_of_parsed_line :
  forall line : js_string,
    join [COMMA] (parseCSVLine line) = without_quotes line
    /\ (~ In QUOTE line -> join [COMMA] (parseCSVLine line) = line).
Proof.
  intros line. split; [apply join_parseCSVLine|].
  intros Hq. rewrite join_parseCSVLine. apply without_quotes_id. exact Hq.
Qed.

(** X20: parsing what [join] made of a non-empty list of fields, none of
    which contains a comma or a double quote, gives the fields back. *)
Theorem parse_of_joined_fields :
  forall parts : list js_string,
    parts <> [] ->
    Forall (fun x => ~ In QUOTE x /\ ~ In COMMA x) parts ->
    parseCSVLine (join [COMMA] parts) = parts.
Proof.
  intros parts Hne Hall. destruct parts as [|f parts]; [contradiction|].
  unfold parseCSVLine. rewrite parse_loop_of_join by assumption. reflexivity.
Qed.

(** X21: for a row with its ten fields, the line without its double
    quotes is the first nine fields joined with commas, a comma, and the
    description: the description is everything after the ninth separating
    comma, further commas included. *)
Theorem description_is_rest_of_line :
  forall line : js_string,
    (10 <= length (parseCSVLine line))%nat ->
    without_quotes line
    = join [COMMA] (firstn 9 (parseCSVLine line))
      ++ [COMMA] ++ description (parseCSVLine line).
Proof.
  intros line Hlen.
  rewrite <- (join_parseCSVLine line).
  unfold description.
  rewrite <- (firstn_skipn 9 (parseCSVLine line)) at 1.
  apply join_app.
  - intros E.
    assert (H : length (firstn 9 (parseCSVLine line)) = 0%nat)
      by (rewrite E; reflexivity).
    rewrite length_firstn in H. lia.
  - intros E.
    assert (H : length (skipn 9 (parseCSVLine line)) = 0%nat)
      by (rewrite E; reflexivity).
    rewrite length_skipn in H. lia.
Qed.

End Csv2Header.

(** ** Escaping *)

Module Escaping.
Import Csv2Header.

(** Reads an escaped string back: a backslash stands for the character
    after it. *)
Fixpoint unescape (s : js_string) : js_string :=
  match s with
  | [] => []
  | c :: rest =>
      if (c =? BACKSLASH)%N
      then match rest with
           | [] => [c]
           | d :: rest' => d :: unescape rest'
           end
      else c :: unescape rest
  end.

Lemma escapeString_cons c s :
  escapeString (c :: s)
  = (if (c =? BACKSLASH)%N then [BACKSLASH; BACKSLASH]
     else if (c =? QUOTE)%N then [BACKSLASH; QUOTE] else [c])
    ++ escapeString s.
Proof.
  unfold escapeString, double_backslashes, backslash_quotes. simpl.
  rewrite flat_map_app.
  destruct (c =? BACKSLASH)%N; [reflexivity|].
  simpl. rewrite app_nil_r. reflexivity.
Qed.

Lemma unescape_escapeString s : unescape (escapeString s) = s.
Proof.
  induction s as [|c s IH]; [reflexivity|].
  rewrite escapeString_cons.
  destruct (c =? BACKSLASH)%N eqn:Eb.
  - apply N.eqb_eq in Eb. subst c. simpl. rewrite IH. reflexivity.
  - destruct (c =? QUOTE)%N eqn:Eq.
    + apply N.eqb_eq in Eq. subst c. simpl. rewrite IH. reflexivity.
    + simpl. rewrite Eb, IH. reflexivity.
Qed.

(** X22: [escapeString] loses nothing: two strings with the same escaped
    form are the same string.  Its two replacements do not interfere, the
    backslashes the second one adds are not doubled by the first. *)
Theorem escapeString_injective :
  forall a b : js_string, escapeString a = escapeString b -> a = b.
Proof.
  intros a b H.
  rewrite <- (unescape_escapeString a), <- (unescape_escapeString b), H.
  reflexivity.
Qed.

(** X23: the escaped string is longer than the string by the number of
    its backslashes and double quotes, and equal to it when it has
    neither. *)
Theorem escapeString_length :
  forall s : js_string,
    length (escapeString s)
    = (length s + count_occ N.eq_dec s BACKSLASH + count_occ N.eq_dec s QUOTE)%nat
    /\ (~ In BACKSLASH s -> ~ In QUOTE s -> escapeString s = s).
Proof.
  intros s. split.
  - induction s as [|c s IH]; [reflexivity|].
    rewrite escapeString_cons, length_app, IH.
    destruct (c =? BACKSLASH)%N eqn:Eb.
    + apply N.eqb_eq in Eb. subst c.
      rewrite count_occ_cons_eq by reflexivity.
      rewrite count_occ_cons_neq by discriminate. simpl. lia.
    + apply N.eqb_neq in Eb. rewrite (count_occ_cons_neq _ _ Eb).
      destruct (c =? QUOTE)%N eqn:Eq.
      * apply N.eqb_eq in Eq. subst c.
        rewrite count_occ_cons_eq by reflexivity. simpl. lia.
      * apply N.eqb_neq in Eq. rewrite (count_occ_cons_neq _ _ Eq). simpl. lia.
  - induction s as [|c s IH]; intros Hb Hq; [reflexivity|].
    rewrite escapeString_cons.
    destruct (c =? BACKSLASH)%N eqn:Eb;
      [apply N.eqb_eq in Eb; destruct Hb; left; exact Eb|].
    destruct (c =? QUOTE)%N eqn:Eq;
      [apply N.eqb_eq in Eq; destruct Hq; left; exact Eq|].
    simpl. f_equal. apply IH; intros Hin; [apply Hb | apply Hq]; right; exact Hin.
Qed.

End Escaping.

(** ** The generator on a sample row *)

Module Csv2HeaderExamples.
Import Csv2Header.

(** A row whose description is quoted and holds a comma. *)
Definition brine_row : js_string :=
  of_string "valueHeatpumpBrineInTemperature,HoldingRegister,100,0,10,1,1,Heatpump,Brine,"
  ++ [QUOTE] ++ of_string "Brine in, temperature" ++ [QUOTE].

Example brine_row_fields :
  parseCSVLine brine_row
  = map of_string
      ["valueHeatpumpBrineInTemperature"; "HoldingRegister"; "100"; "0"; "10";
       "1"; "1"; "Heatpump"; "Brine"; "Brine in, temperature"].
Proof. vm_compute. reflexivity. Qed.

(** Left unquoted, the comma splits the description, and [description]
    puts it together again. *)
Example unquoted_description_rejoined :
  let fields := parseCSVLine (without_quotes brine_row) in
  length fields = 11%nat
  /\ description fields = of_string "Brine in, temperature".
Proof. vm_compute. split; reflexivity. Qed.

Lemma parse_of_joined_fields_witness :
  parseCSVLine (join [COMMA] [of_string "name"; []; of_string "100"])
  = [of_string "name"; []; of_string "100"].
Proof.
  apply parse_of_joined_fields.
  - discriminate.
  - repeat constructor; vm_compute; intuition discriminate.
Defined.

Lemma description_is_rest_of_line_witness :
  without_quotes brine_row
  = join [COMMA] (firstn 9 (parseCSVLine brine_row))
    ++ [COMMA] ++ description (parseCSVLine brine_row).
Proof.
  apply description_is_rest_of_line. vm_compute. lia.
Defined.

Lemma escapeString_injective_witness :
  of_string "C:\temp" = of_string "C:\temp".
Proof.
  apply Escaping.escapeString_injective. reflexivity.
Defined.

End Csv2HeaderExamples.

(** * Display scaling *)

(** ** [atoi] *)

(** [isspace] in the C locale: space, and tab to carriage return. *)
Definition isspace (ch : ascii) : bool :=
  let n := Z.of_nat (nat_of_ascii ch) in
  (n =? 32) || ((9 <=? n) && (n <=? 13)).

Fixpoint skip_space (s : string) : string :=
  match s with
  | String ch rest => if isspace ch then skip_space rest else s
  | EmptyString => s
  end.

(** [strtol(nptr, NULL, 10)] with a 64-bit [long]: white space, an optional
    sign, the longest run of digits (0 when there is none), clamped to
    [LONG_MIN, LONG_MAX]. *)
Definition strtol10 (nptr : string) : Z :=
  let s := skip_space nptr in
  let v := match s with
           | String "-" rest => - digits_value rest 0
           | String "+" rest => digits_value rest 0
           | _ => digits_value s 0
           end in
  Z.max (- 2 ^ 63) (Z.min (2 ^ 63 - 1) v).

(** [atoi] as glibc has it, [(int) strtol(nptr, NULL, 10)], the cast to a
    32-bit [int] wrapping.  For a word whose number fits an [int], the only
    case in which C defines [atoi], this is that number. *)
Definition glibc_atoi (nptr : string) : Z :=
  (strtol10 nptr + 2 ^ 31) mod 2 ^ 32 - 2 ^ 31.

Example glibc_atoi_stops_at_the_point : glibc_atoi "22.5" = 22.
Proof. reflexivity. Qed.

Example glibc_atoi_skips_space_and_reads_sign : glibc_atoi "  -42abc" = -42.
Proof. reflexivity. Qed.

Example glibc_atoi_wraps : glibc_atoi "4294967296" = 0.
Proof. reflexivity. Qed.

(** ** The accessors and the write branch do not read [scale] *)

Section ScaleUnused.

Context {world : Type} {lib : Modbus world}.
Variable g_registers : list register_def_t.
Variable f : register_def_t -> Z.

Lemma write_bit_ignores_scale nm v (s : state world) :
  thermia_modbus_write_register_bit (map (rescale f) g_registers) nm v s
  = thermia_modbus_write_register_bit g_registers nm v s.
Proof.
  unfold_driver. rewrite find_register_rescale.
  destruct (g_ctx s); try reflexivity.
  destruct (find_register g_registers nm _); reflexivity.
Qed.

Lemma write_int_ignores_scale nm v (s : state world) :
  thermia_modbus_write_register_int (map (rescale f) g_registers) nm v s
  = thermia_modbus_write_register_int g_registers nm v s.
Proof.
  unfold_driver. rewrite find_register_rescale.
  destruct (g_ctx s); try reflexivity.
  destruct (find_register g_registers nm _); reflexivity.
Qed.

Lemma write_branch_ignores_scale atoi argv (cs : cli_state world) :
  write_branch (map (rescale f) g_registers) atoi argv cs
  = write_branch g_registers atoi argv cs.
Proof.
  unfold write_branch.
  destruct (length argv <? 6)%nat; [reflexivity|].
  rewrite find_register_rescale.
  destruct (find_register g_registers (nth 4 argv "") WRITABLE_KIND) as [reg|];
    [|reflexivity].
  simpl. unfold cli_bind, driver.
  destruct (type reg =? REG_COIL_STATUS).
  - rewrite write_bit_ignores_scale. reflexivity.
  - rewrite write_int_ignores_scale. reflexivity.
Qed.

Lemma cli_bind_ext {A B} (m : CLI world A) (k1 k2 : A -> CLI world B) cs :
  (forall a cs', k1 a cs' = k2 a cs') -> cli_bind m k1 cs = cli_bind m k2 cs.
Proof. intros H. unfold cli_bind. destruct (m cs) as [a cs']. apply H. Qed.

Lemma main_write_ignores_scale atoi percent_2f_quotient ib ii argv
      (cs : cli_state world) :
  nth 3 argv "" = "write" ->
  main (map (rescale f) g_registers) atoi percent_2f_quotient ib ii argv cs
  = main g_registers atoi percent_2f_quotient ib ii argv cs.
Proof.
  intros Hop. unfold main.
  destruct (length argv <? 5)%nat; [reflexivity|].
  rewrite Hop.
  change (strcmp "write" "read" =? 0) with false.
  change (strcmp "write" "write" =? 0) with true. cbv iota.
  assert (Hafter : forall ok cs1,
    (if negb ok then cli_ret EXIT_FAILURE
     else cli_bind (write_branch (map (rescale f) g_registers) atoi argv)
            (fun completed : bool =>
               cli_bind (driver thermia_modbus_close)
                 (fun _ => cli_ret (if completed then EXIT_SUCCESS
                                    else EXIT_FAILURE)))) cs1
    = (if negb ok then cli_ret EXIT_FAILURE
       else cli_bind (write_branch g_registers atoi argv)
              (fun completed : bool =>
                 cli_bind (driver thermia_modbus_close)
                   (fun _ => cli_ret (if completed then EXIT_SUCCESS
                                      else EXIT_FAILURE)))) cs1).
  { intros ok cs1. destruct ok; simpl; [|reflexivity].
    unfold cli_bind. rewrite write_branch_ignores_scale. reflexivity. }
  destruct (strcmp (nth 2 argv "") "mega" =? 0);
    [apply cli_bind_ext; exact Hafter|].
  destruct (strcmp (nth 2 argv "") "inverter" =? 0);
    [apply cli_bind_ext; exact Hafter | reflexivity].
Qed.

End ScaleUnused.

(** The request the write branch makes for a holding register. *)
Lemma write_branch_sends_atoi {world} {lib : Modbus world} g_registers atoi argv
      (cs : cli_state world) c reg :
  (6 <= length argv)%nat ->
  find_register g_registers (nth 4 argv "") WRITABLE_KIND = Some reg ->
  type reg = REG_HOLDING ->
  g_ctx (proc cs) = Some c ->
  is_register_supported (g_model (proc cs)) reg = true ->
  trace (proc (snd (write_branch g_registers atoi argv cs)))
  = trace (proc cs)
    ++ [EvWriteRegister c (address reg) (atoi (nth 5 argv "") mod 2 ^ 16)].
Proof.
  intros Hlen Hf Hty Hc Hs.
  assert (Hcoil : (type reg =? REG_COIL_STATUS) = false)
    by (rewrite Hty; reflexivity).
  assert (Hh : find_register g_registers (nth 4 argv "") REG_HOLDING = Some reg).
  { apply lookup_for_write_int; try assumption.
    right; right; right. exact Hty. }
  unfold write_branch.
  apply Nat.ltb_ge in Hlen. rewrite Hlen, Hf, Hcoil.
  unfold cli_bind, driver, cli_ret.
  unfold_driver. rewrite Hc, Hh, Hs. simpl.
  destruct (modbus_write_register c (address reg)
              (uint16 (atoi (nth 5 argv ""))) (bus (proc cs))) as [rc w].
  simpl. destruct (rc =? -1); reflexivity.
Qed.

(** ** What the command line shows, and what it writes *)

From Stdlib Require PrimFloat Uint63Axioms QArith Qround.

Module ValueScaling.
Import PrimFloat.

(** [(double)z] for an [int]: every [int] is a double, so the conversion is
    exact. *)
Definition double_of_int (z : Z) : float :=
  if z <? 0 then PrimFloat.opp (PrimFloat.of_uint63 (Uint63Axioms.of_Z (- z)))
  else PrimFloat.of_uint63 (Uint63Axioms.of_Z z).

(** What [main] hands to [printf] for an int register it has read (lines
    228 to 231): the quotient as a double together with the raw value when
    [reg->scale > 1], the raw value alone otherwise. *)
Inductive shown :=
| Scaled (quotient : float) (raw : Z)
| Unscaled (value : Z).

Definition toDisplay (value scale : Z) : shown :=
  if scale >? 1
  then Scaled (PrimFloat.div (double_of_int value) (double_of_int scale)) value
  else Unscaled value.

(** The line printed for it, [percent_2f] being printf's rendering of a
    double under [%.2f]. *)
Definition shown_line (percent_2f : float -> string) (reg_name : string)
           (d : shown) : string :=
  match d with
  | Scaled q raw =>
      (reg_name ++ " = " ++ percent_2f q ++ " (read) (raw = " ++ percent_d raw
       ++ ")" ++ nl)%string
  | Unscaled v => (reg_name ++ " = " ++ percent_d v ++ " (read)" ++ nl)%string
  end.

(** The spec's [toRaw], in its words, over the rationals:
    [round(display * scale)], halves rounded up. *)
Definition spec_toRaw (display : QArith_base.Q) (scale : Z) : Z :=
  Qround.Qfloor
    (QArith_base.Qplus
       (QArith_base.Qmult display (QArith_base.inject_Z scale))
       (QArith_base.Qmake 1 2)).

(** 22.5 as a rational. *)
Definition twenty_two_and_a_half : QArith_base.Q := QArith_base.Qmake 45 2.

(** The command line [thermia 192.168.0.106 mega write
    valueHeatpumpBrineInTemperature 22.5] on the simulated controller:
    the register has scale 10. *)
Definition write_22_5 : list string :=
  ["thermia"; "192.168.0.106"; "mega"; "write";
   "valueHeatpumpBrineInTemperature"; "22.5"].

Definition calls_of_write_22_5 : list modbus_call :=
  trace (proc (snd (main sample_registers glibc_atoi quotient_as_fraction
                         false 0 write_22_5
                         (mk_cli (initial sample_device) [])))).


Section AsCoded.

Context {world : Type} {lib : Modbus world}.


End AsCoded.

(** Reading the scale-10 register holding 225 prints the line for 22.5. *)
Example read_225_shows_22_5 :
  forall percent_2f : float -> string,
    stdout (proc (snd (read_one sample_registers
                         (fun v sc => percent_2f (PrimFloat.div (double_of_int v)
                                                                (double_of_int sc)))
                         false 0 "valueHeatpumpBrineInTemperature"
                         (mk_cli (opened MODEL_MEGA
                                    (mk_sim true true [] [(100, 225)] "")) []))))
    = [shown_line percent_2f "valueHeatpumpBrineInTemperature"
                  (Scaled 22.5%float 225)].
Proof. intros percent_2f. vm_compute. reflexivity. Qed.


End ValueScaling.
